(** * Upload handlers of the video-hosting backend

    A shallow embedding of the four upload handlers of the repository
    (two thumbnail variants, two video variants) and of the media prober
    [getVideoAspectRatio], followed by the properties proved about them.

    Go values are modelled as follows: [int] as [Z] (every operation the
    prober performs on in-range positive operands stays in range, so no
    wrap-around is written), [string] and [[]byte] as [string], [error] as the
    text of its message, a nilable [*string] as [option string], the map
    [videoThumbnails] and the record store as [gmap].  Standard output
    ([fmt.Println]) is not modelled.  A call that fails leaves the state as
    it was before the call. *)

From Stdlib Require Import ZArith Lia Ascii String.
From Equations Require Import Equations.
From stdpp Require Import base numbers option list strings gmap pretty.

Local Open Scope string_scope.
Local Open Scope Z_scope.

(** ** Results of fallible calls *)

Definition error := string.

Inductive result (A : Type) : Type :=
| Ok (a : A)
| Err (e : error).
Arguments Ok {A} a.
Arguments Err {A} e.

(** ** Constants of the source *)

Definition maxMemory : Z := Z.shiftl 10 20.
Definition maxVideoSize : Z := Z.shiftl 1 30.

Definition Portrait : string := "9:16".
Definition Landscape : string := "16:9".

Definition StatusOK : Z := 200.
Definition StatusCreated : Z := 201.
Definition StatusBadRequest : Z := 400.
Definition StatusUnauthorized : Z := 401.
Definition StatusNotFound : Z := 404.
Definition StatusInternalServerError : Z := 500.

(** ** The media prober *)

Record Stream := { Width : Z; Height : Z }.

(** The closure [gcd] of [getVideoAspectRatio]:
    [for b != 0 { a, b = b, a%b }; return a].  Go's [%] is the truncated
    remainder, [Z.rem]. *)
Equations? gcd (a b : Z) : Z by wf (Z.abs_nat b) lt :=
  gcd a b with Z.eq_dec b 0 := {
    | left _ => a
    | right _ => gcd b (Z.rem a b) }.
Proof.
  pose proof (Z.rem_bound_abs a b n). lia.
Qed.

(** [fmt.Sprintf("%d:%d", w, h)]. *)
Definition Sprintf_ratio (w h : Z) : string :=
  pretty w +:+ ":" +:+ pretty h.

(** The [for _, stream := range result.Streams] loop, with the final
    [return] that follows it. *)
Fixpoint rangeStreams (streams : list Stream) : result string :=
  match streams with
  | [] => Err "no video stream with valid dimensions found"
  | stream :: rest =>
      if (0 <? Width stream) && (0 <? Height stream) then
        let divisor := gcd (Width stream) (Height stream) in
        let calcWidth := Z.quot (Width stream) divisor in
        let calcHeight := Z.quot (Height stream) divisor in
        Ok (Sprintf_ratio calcWidth calcHeight)
      else rangeStreams rest
  end.

(** What [getVideoAspectRatio] calls outside the program: the [ffprobe]
    subprocess (its standard output, or the error of [cmd.Run]) and
    [json.Unmarshal] into the anonymous [Streams] struct. *)
Record Prober := {
  exec_ffprobe : string → result string;
  json_Unmarshal : string → result (list Stream);
}.

Definition getVideoAspectRatio (P : Prober) (filePath : string) : result string :=
  match exec_ffprobe P filePath with
  | Err err => Err ("failed to run ffprobe: " +:+ err)
  | Ok stdout =>
      match json_Unmarshal P stdout with
      | Err err => Err ("failed to parse ffprobe output: " +:+ err)
      | Ok streams =>
          if (Z.of_nat (length streams) =? 0) then Err "no streamsa found in video"
          else rangeStreams streams
      end
  end.

(** The classification the video handler derives from the ratio:
    [aspect := "portrait"; if aspectRatio == Landscape { aspect = "landscape" }]. *)
Definition aspectOf (aspectRatio : string) : string :=
  if String.eqb aspectRatio Landscape then "landscape" else "portrait".

(** ** Data model *)

(** [uuid.UUID], a 128-bit value. *)
Definition UUID := N.

(** Modelled from the spec: the Record of the data model ([database.Video],
    declared outside the files at hand): identifier, owner, optional thumbnail
    reference, optional video reference.  The two references are [*string]
    in the handlers, hence [option]. *)
Record Video := {
  ID : UUID;
  UserID : UUID;
  ThumbnailURL : option string;
  VideoURL : option string;
}.

Definition set_ThumbnailURL (v : Video) (u : option string) : Video :=
  {| ID := ID v; UserID := UserID v; ThumbnailURL := u; VideoURL := VideoURL v |}.
Definition set_VideoURL (v : Video) (u : option string) : Video :=
  {| ID := ID v; UserID := UserID v; ThumbnailURL := ThumbnailURL v; VideoURL := u |}.

(** The struct [thumbnail] stored in the global map [videoThumbnails]. *)
Record thumbnail := { data : string; mediaType : string }.

(** One file part of a multipart form: the value of its [Content-Type]
    header ([header.Header.Get("Content-Type")], empty when absent) and its
    bytes. *)
Record FilePart := { fh_ContentType : string; fh_bytes : string }.

(** An incoming request.  [r_multipart] is the form the body encodes, [None]
    when the body is not a well-formed multipart form. *)
Record Request := {
  r_PathValue_videoID : string;
  r_Header : list (string * string);
  r_bodySize : Z;
  r_multipart : option (list (string * FilePart));
}.

Record apiConfig := {
  jwtSecret : string;
  port : string;
  s3Bucket : string;
}.

(** What has been written to the [http.ResponseWriter]. *)
Inductive Body :=
| BodyError (msg : string)
| BodyVideo (v : Video)
| BodyEmpty.

Record Response := { status : Z; body : Body }.

(** Calls that leave the handler, in the order they are issued. *)
Inductive Event :=
| EvGetVideo (id : UUID)
| EvUpdateVideo (v : Video) (ok : bool)
| EvCreate (path : string) (ok : bool)
| EvCreateTemp (name : string)
| EvCopy (path : string) (ok : bool)
| EvRemove (path : string) (ok : bool)
| EvProbe (path : string)
| EvUpload (key : string) (ok : bool)
| EvClose (name : string)
| EvRespond (code : Z).

(** The state that outlives a request: the record store, the local file
    system (path to contents), the process-wide map [videoThumbnails] and the
    remote bucket (key to contents and content type). *)
Record World := {
  w_db : gmap UUID Video;
  w_fs : gmap string string;
  w_videoThumbnails : gmap UUID thumbnail;
  w_s3 : gmap string (string * string);
}.

Definition with_db (f : gmap UUID Video → gmap UUID Video) (w : World) : World :=
  {| w_db := f (w_db w); w_fs := w_fs w;
     w_videoThumbnails := w_videoThumbnails w; w_s3 := w_s3 w |}.
Definition with_fs (f : gmap string string → gmap string string) (w : World) : World :=
  {| w_db := w_db w; w_fs := f (w_fs w);
     w_videoThumbnails := w_videoThumbnails w; w_s3 := w_s3 w |}.
Definition with_videoThumbnails
    (f : gmap UUID thumbnail → gmap UUID thumbnail) (w : World) : World :=
  {| w_db := w_db w; w_fs := w_fs w;
     w_videoThumbnails := f (w_videoThumbnails w); w_s3 := w_s3 w |}.
Definition with_s3
    (f : gmap string (string * string) → gmap string (string * string)) (w : World) : World :=
  {| w_db := w_db w; w_fs := w_fs w;
     w_videoThumbnails := w_videoThumbnails w; w_s3 := f (w_s3 w) |}.

(** ** What lies outside the files at hand

    Library calls and the repository's helpers of other files, as functions;
    the faults of the operating system, the record store and the remote store
    as oracles. *)
Record Env := {
  uuid_Parse : string → result UUID;
  uuid_String : UUID → string;
  auth_GetBearerToken : list (string * string) → result string;
  auth_ValidateJWT : string → string → result UUID;
  (** first result of [mime.ParseMediaType], empty when it fails *)
  mime_ParseMediaType : string → string;
  rand_Read : nat → result string;
  base64_RawURLEncoding_EncodeToString : string → string;
  getAssetPath : string → string → string;
  getAssetDiskPath : apiConfig → string → string;
  getAssetURL : apiConfig → string → string;
  getAssetFromURL : string → string;
  os_Create_fault : string → option error;
  os_CreateTemp_result : result string;
  io_Copy_fault : string → option error;
  os_Remove_fault : string → option error;
  io_ReadAll_fault : option error;
  Seek_fault : string → option error;
  UpdateVideo_fault : Video → option error;
  s3_Upload_result : string → string → string → string → result string;
  prober : Prober;
}.

(** ** The handler monad

    A handler runs on a frame: the world, the stack of deferred calls, the
    calls issued so far and the response written so far.  A step either goes
    on with a value or leaves the function, by [return] or by a panic. *)

Inductive Deferred :=
| DClose (name : string)
| DRemove (E : Env) (path : string).

Record Frame := {
  world : World;
  defers : list Deferred;
  trace : list Event;
  resp : option Response;
}.

Inductive Exit := Returned | Panicked.

Inductive Step (A : Type) : Type :=
| Next (a : A)
| Stop (x : Exit).
Arguments Next {A} a.
Arguments Stop {A} x.

Definition M (A : Type) : Type := Frame → Frame * Step A.

#[export] Instance M_ret : MRet M := λ A a f, (f, Next a).
#[export] Instance M_bind : MBind M := λ A B k m f,
  match m f with
  | (f', Next a) => k a f'
  | (f', Stop x) => (f', Stop x)
  end.

Definition return_ {A} : M A := λ f, (f, Stop Returned).
Definition panic {A} : M A := λ f, (f, Stop Panicked).

Definition get_world : M World := λ f, (f, Next (world f)).

Definition modify (g : World → World) : M unit := λ f,
  ({| world := g (world f); defers := defers f; trace := trace f; resp := resp f |}, Next tt).

Definition emit (e : Event) : M unit := λ f,
  ({| world := world f; defers := defers f; trace := trace f ++ [e]; resp := resp f |}, Next tt).

Definition defer (d : Deferred) : M unit := λ f,
  ({| world := world f; defers := d :: defers f; trace := trace f; resp := resp f |}, Next tt).

(** Writing the response: the first status line written is the one sent. *)
Definition respond (r : Response) : M unit := λ f,
  ({| world := world f; defers := defers f; trace := trace f ++ [EvRespond (status r)];
      resp := match resp f with Some r0 => Some r0 | None => Some r end |}, Next tt).

Definition when_ (b : bool) (m : M unit) : M unit := if b then m else mret tt.

(** ** Primitive steps *)

(** Modelled from the spec: the response helpers [respondWithError] and
    [respondWithJSON] (declared outside the files at hand): a failure is
    answered with the given status code and a JSON object carrying the
    message, a success with the status code and the payload.  The [err]
    argument only reaches the log and is left out. *)
Definition respondWithError (code : Z) (msg : string) : M unit :=
  respond {| status := code; body := BodyError msg |}.

Definition respondWithJSON (code : Z) (payload : Video) : M unit :=
  respond {| status := code; body := BodyVideo payload |}.

(** [w.WriteHeader(code)] *)
Definition WriteHeader (code : Z) : M unit :=
  respond {| status := code; body := BodyEmpty |}.

(** [respondWithError(...); return] *)
Definition reject {A} (code : Z) (msg : string) : M A :=
  respondWithError code msg ;; return_.

(** [x, err := call; if err != nil { respondWithError(...); return }] *)
Definition try_ {A} (call : M (result A)) (code : Z) (msg : string) : M A :=
  r ← call;
  match r with
  | Ok a => mret a
  | Err _ => reject code msg
  end.

(** Modelled from the spec: the record store ([cfg.db], declared outside the
    files at hand): [get(id)] yields the record or fails when there is none,
    [update(record)] replaces the stored record in one call or fails. *)
Definition db_GetVideo (id : UUID) : M (result Video) :=
  w ← get_world;
  emit (EvGetVideo id);;
  mret (match w_db w !! id with
        | Some v => Ok v
        | None => Err "video not found"
        end).

Definition db_UpdateVideo (E : Env) (v : Video) : M (result unit) :=
  match UpdateVideo_fault E v with
  | Some e => emit (EvUpdateVideo v false);; mret (Err e)
  | None =>
      modify (with_db (insert (ID v) v));;
      emit (EvUpdateVideo v true);;
      mret (Ok tt)
  end.

(** [os.Create]: the file exists and is empty afterwards, unless the call
    faults. *)
Definition os_Create (E : Env) (path : string) : M (result string) :=
  match os_Create_fault E path with
  | Some e => emit (EvCreate path false);; mret (Err e)
  | None =>
      modify (with_fs (insert path EmptyString));;
      emit (EvCreate path true);;
      mret (Ok path)
  end.

(** [os.CreateTemp]: a new empty file under the name the system picks. *)
Definition os_CreateTemp (E : Env) : M (result string) :=
  match os_CreateTemp_result E with
  | Err e => mret (Err e)
  | Ok name =>
      modify (with_fs (insert name EmptyString));;
      emit (EvCreateTemp name);;
      mret (Ok name)
  end.

(** [io.Copy(dst, src)] onto the open file [dst], from its start. *)
Definition io_Copy (E : Env) (dst : string) (src : string) : M (result unit) :=
  match io_Copy_fault E dst with
  | Some e => emit (EvCopy dst false);; mret (Err e)
  | None =>
      modify (with_fs (insert dst src));;
      emit (EvCopy dst true);;
      mret (Ok tt)
  end.

(** [os.Remove]: fails when the call faults or when there is no such file;
    the file is gone only when the call succeeds. *)
Definition os_Remove (E : Env) (path : string) : M (result unit) :=
  match os_Remove_fault E path with
  | Some e => emit (EvRemove path false);; mret (Err e)
  | None =>
      w ← get_world;
      match w_fs w !! path with
      | Some _ =>
          modify (with_fs (delete path));;
          emit (EvRemove path true);;
          mret (Ok tt)
      | None => emit (EvRemove path false);; mret (Err "no such file or directory")
      end
  end.

(** [tempFile.Seek(0, io.SeekStart)]; the read position itself is not kept,
    the upload that follows reads the file from its start. *)
Definition Seek_start (E : Env) (name : string) : M (result unit) :=
  mret (match Seek_fault E name with Some e => Err e | None => Ok tt end).

(** [uploader.Upload] of the staged file [name] under [key]. *)
Definition Upload (E : Env) (cfg : apiConfig) (key name ctype : string) : M (result string) :=
  w ← get_world;
  let content := default EmptyString (w_fs w !! name) in
  match s3_Upload_result E (s3Bucket cfg) key content ctype with
  | Err e => emit (EvUpload key false);; mret (Err e)
  | Ok location =>
      modify (with_s3 (insert key (content, ctype)));;
      emit (EvUpload key true);;
      mret (Ok location)
  end.

(** [r.ParseMultipartForm(maxMem)], on a body read through
    [http.MaxBytesReader] when [limit] is given: reading past the limit
    fails.  [maxMem] only says how much of the form is kept in memory, the
    rest is spilled to temporary files; it bounds nothing. *)
Definition ParseMultipartForm (limit : option Z) (maxMem : Z) (r : Request)
    : result (list (string * FilePart)) :=
  if match limit with Some n => n <? r_bodySize r | None => false end
  then Err "http: request body too large"
  else match r_multipart r with
       | Some form => Ok form
       | None => Err "request Content-Type isn't multipart/form-data"
       end.

Fixpoint lookupFile (key : string) (form : list (string * FilePart)) : option FilePart :=
  match form with
  | [] => None
  | (k, p) :: rest => if String.eqb k key then Some p else lookupFile key rest
  end.

(** [r.FormFile(key)] on the form parsed before ([form] is an error when
    parsing failed, and parsing again fails the same way). *)
Definition FormFile (form : result (list (string * FilePart))) (key : string)
    : result FilePart :=
  match form with
  | Err e => Err e
  | Ok parts =>
      match lookupFile key parts with
      | Some p => Ok p
      | None => Err "http: no such file"
      end
  end.

(** Dereference of a [*string]: a nil pointer panics. *)
Definition deref {A} (p : option A) : M A :=
  match p with
  | Some a => mret a
  | None => panic
  end.

(** [io.ReadAll(file)] *)
Definition io_ReadAll (E : Env) (src : string) : M (result string) :=
  mret (match io_ReadAll_fault E with Some e => Err e | None => Ok src end).

(** The call of [getVideoAspectRatio] on the staged file. *)
Definition probe (E : Env) (filePath : string) : M (result string) :=
  emit (EvProbe filePath);;
  mret (getVideoAspectRatio (prober E) filePath).

(** ** Running a handler: the body, then the deferred calls, last one first,
    also when the body panicked. *)

Definition runDeferred (d : Deferred) : M unit :=
  match d with
  | DClose name => emit (EvClose name)
  | DRemove E path => os_Remove E path;; mret tt
  end.

Fixpoint runDefers (ds : list Deferred) (f : Frame) : Frame :=
  match ds with
  | [] => f
  | d :: rest => runDefers rest (fst (runDeferred d f))
  end.

(** What a request leaves behind. *)
Record Run := {
  final : World;
  exit : Exit;
  events : list Event;
  response : option Response;
}.

Definition serve (h : M unit) (w : World) : Run :=
  let '(f, s) := h {| world := w; defers := []; trace := []; resp := None |} in
  let f' := runDefers (defers f) f in
  {| final := world f';
     exit := match s with Stop Panicked => Panicked | _ => Returned end;
     events := trace f';
     response := resp f' |}.

(** ** The handlers *)

(** Thumbnail upload, assets on the local disk. *)
Module ThumbnailDisk.

Definition handlerUploadThumbnail (E : Env) (cfg : apiConfig) (r : Request) : M unit :=
  let videoIDString := r_PathValue_videoID r in
  videoID ← try_ (mret (uuid_Parse E videoIDString)) StatusBadRequest "Invalid ID";
  token ← try_ (mret (auth_GetBearerToken E (r_Header r)))
            StatusUnauthorized "Couldn't find JWT";
  userID ← try_ (mret (auth_ValidateJWT E token (jwtSecret cfg)))
             StatusUnauthorized "Couldn't validate JWT";
  let form := ParseMultipartForm None maxMemory r in
  header ← try_ (mret (FormFile form "thumbnail"))
             StatusInternalServerError "something went wrong retrieving the form data";
  defer (DClose "thumbnail");;
  let mediaType := mime_ParseMediaType E (fh_ContentType header) in
  when_ (String.eqb mediaType EmptyString)
    (reject StatusBadRequest "Missing Content-Type for thumbnail");;
  when_ (negb (String.eqb mediaType "image/jpeg") && negb (String.eqb mediaType "image/png"))
    (reject StatusBadRequest "wrong image type for thumbnail");;
  videoData ← try_ (db_GetVideo videoID) StatusNotFound "Video not found";
  when_ (negb (N.eqb (UserID videoData) userID))
    (reject StatusUnauthorized "Unauthorized for this video");;
  randBytes ← try_ (mret (rand_Read E 32))
                StatusInternalServerError "Error creating thumbnail random ID";
  let randomBase64String := base64_RawURLEncoding_EncodeToString E randBytes in
  let assetPath := getAssetPath E randomBase64String mediaType in
  let assetDiskPath := getAssetDiskPath E cfg assetPath in
  dst ← try_ (os_Create E assetDiskPath) StatusInternalServerError "Unable to create file";
  defer (DClose dst);;
  try_ (io_Copy E dst (fh_bytes header)) StatusInternalServerError "Error saving file";;
  let thumbnailURL := getAssetURL E cfg assetPath in
  oldURL ← deref (ThumbnailURL videoData);
  let oldThumbnail := getAssetFromURL E oldURL in
  let videoData := set_ThumbnailURL videoData (Some thumbnailURL) in
  try_ (db_UpdateVideo E videoData) StatusInternalServerError "Couldn't update video data";;
  let oldThumbnailPath := "./assets/" +:+ oldThumbnail in
  try_ (os_Remove E oldThumbnailPath)
    StatusInternalServerError "Error removing old thumbnail";;
  respondWithJSON StatusOK videoData.

End ThumbnailDisk.

(** Thumbnail upload, assets in the process-wide map [videoThumbnails]. *)
Module ThumbnailMemory.

Definition handlerUploadThumbnail (E : Env) (cfg : apiConfig) (r : Request) : M unit :=
  let videoIDString := r_PathValue_videoID r in
  videoID ← try_ (mret (uuid_Parse E videoIDString)) StatusBadRequest "Invalid ID";
  token ← try_ (mret (auth_GetBearerToken E (r_Header r)))
            StatusUnauthorized "Couldn't find JWT";
  userID ← try_ (mret (auth_ValidateJWT E token (jwtSecret cfg)))
             StatusUnauthorized "Couldn't validate JWT";
  let form := ParseMultipartForm None maxMemory r in
  header ← try_ (mret (FormFile form "thumbnail"))
             StatusInternalServerError "something went wrong retrieving the form data";
  defer (DClose "thumbnail");;
  let mediaType := fh_ContentType header in
  when_ (String.eqb mediaType EmptyString)
    (reject StatusBadRequest "Missing Content-Type for thumbnail");;
  imageData ← try_ (io_ReadAll E (fh_bytes header))
                StatusInternalServerError "Couldn't read thumbnail file";
  videoData ← try_ (db_GetVideo videoID) StatusNotFound "Video not found";
  when_ (negb (N.eqb (UserID videoData) userID))
    (reject StatusUnauthorized "Unauthorized for this video");;
  modify (with_videoThumbnails
            (insert videoID {| data := imageData; mediaType := mediaType |}));;
  let newThumbnailURL :=
    "http://localhost:" +:+ port cfg +:+ "/api/thumbnails/" +:+ uuid_String E videoID in
  let videoData := set_ThumbnailURL videoData (Some newThumbnailURL) in
  updated ← db_UpdateVideo E videoData;
  match updated with
  | Err _ =>
      modify (with_videoThumbnails (delete videoID));;
      reject StatusInternalServerError "Couldn't update video data"
  | Ok _ => respondWithJSON StatusOK videoData
  end.

End ThumbnailMemory.

(** Video upload to the remote store, without classification
    ([handler_upload_video.go]). *)
Module VideoPlain.

Definition handlerUploadVideo (E : Env) (cfg : apiConfig) (r : Request) : M unit :=
  let videoIDString := r_PathValue_videoID r in
  videoID ← try_ (mret (uuid_Parse E videoIDString)) StatusBadRequest "Invalid video ID";
  token ← try_ (mret (auth_GetBearerToken E (r_Header r)))
            StatusUnauthorized "Couldn't find JWT";
  userID ← try_ (mret (auth_ValidateJWT E token (jwtSecret cfg)))
             StatusUnauthorized "Couldn't validate JWT";
  form ← try_ (mret (ParseMultipartForm (Some maxVideoSize) maxVideoSize r))
           StatusBadRequest "File size too big";
  videoData ← try_ (db_GetVideo videoID) StatusNotFound "Video not found";
  when_ (negb (N.eqb (UserID videoData) userID))
    (reject StatusUnauthorized "Unauthorized for this video");;
  header ← try_ (mret (FormFile (Ok form) "video"))
             StatusInternalServerError "something went wrong retrieving the form data";
  defer (DClose "video");;
  let mediaType := mime_ParseMediaType E (fh_ContentType header) in
  when_ (negb (String.eqb mediaType "video/mp4"))
    (reject StatusBadRequest "wrong content type for video");;
  tempFile ← try_ (os_CreateTemp E) StatusInternalServerError "Error creating file";
  defer (DClose tempFile);;
  defer (DRemove E tempFile);;
  try_ (io_Copy E tempFile (fh_bytes header)) StatusInternalServerError "Error copying file";;
  try_ (Seek_start E tempFile) StatusInternalServerError "Error seeking to start of video";;
  randBytes ← try_ (mret (rand_Read E 32))
                StatusInternalServerError "Error creating video random ID";
  let randomBase64String := base64_RawURLEncoding_EncodeToString E randBytes in
  location ← try_ (Upload E cfg randomBase64String tempFile mediaType)
               StatusInternalServerError "Error uploading video to server";
  let videoData := set_VideoURL videoData (Some location) in
  try_ (db_UpdateVideo E videoData) StatusInternalServerError "Couldn't update video data";;
  WriteHeader StatusCreated.

End VideoPlain.

(** Video upload to the remote store under a key prefixed by the
    classification of the probed aspect ratio. *)
Module VideoClassified.

Definition handlerUploadVideo (E : Env) (cfg : apiConfig) (r : Request) : M unit :=
  let videoIDString := r_PathValue_videoID r in
  videoID ← try_ (mret (uuid_Parse E videoIDString)) StatusBadRequest "Invalid video ID";
  token ← try_ (mret (auth_GetBearerToken E (r_Header r)))
            StatusUnauthorized "Couldn't find JWT";
  userID ← try_ (mret (auth_ValidateJWT E token (jwtSecret cfg)))
             StatusUnauthorized "Couldn't validate JWT";
  form ← try_ (mret (ParseMultipartForm (Some maxVideoSize) maxVideoSize r))
           StatusBadRequest "File size too big";
  videoData ← try_ (db_GetVideo videoID) StatusNotFound "Video not found";
  when_ (negb (N.eqb (UserID videoData) userID))
    (reject StatusUnauthorized "Unauthorized for this video");;
  header ← try_ (mret (FormFile (Ok form) "video"))
             StatusInternalServerError "something went wrong retrieving the form data";
  defer (DClose "video");;
  let mediaType := mime_ParseMediaType E (fh_ContentType header) in
  when_ (negb (String.eqb mediaType "video/mp4"))
    (reject StatusBadRequest "wrong content type for video");;
  tempFile ← try_ (os_CreateTemp E) StatusInternalServerError "Error creating file";
  defer (DClose tempFile);;
  defer (DRemove E tempFile);;
  try_ (io_Copy E tempFile (fh_bytes header)) StatusInternalServerError "Error copying file";;
  aspectRatio ← try_ (probe E tempFile)
                  StatusInternalServerError "Failed to get aspect ratio of video";
  try_ (Seek_start E tempFile) StatusInternalServerError "Error seeking to start of video";;
  randBytes ← try_ (mret (rand_Read E 32))
                StatusInternalServerError "Error creating video random ID";
  let randomBase64String := base64_RawURLEncoding_EncodeToString E randBytes in
  let aspect := aspectOf aspectRatio in
  location ← try_ (Upload E cfg (aspect +:+ "/" +:+ randomBase64String) tempFile mediaType)
               StatusInternalServerError "Error uploading video to server";
  let videoData := set_VideoURL videoData (Some location) in
  try_ (db_UpdateVideo E videoData) StatusInternalServerError "Couldn't update video data";;
  WriteHeader StatusCreated.

End VideoClassified.

(** ** The variants side by side *)

Inductive VideoVariant := Plain | Classified.

Definition handlerUploadVideo (v : VideoVariant) : Env → apiConfig → Request → M unit :=
  match v with
  | Plain => VideoPlain.handlerUploadVideo
  | Classified => VideoClassified.handlerUploadVideo
  end.

Inductive ThumbnailVariant := OnDisk | InMemory.

Definition handlerUploadThumbnail (v : ThumbnailVariant) : Env → apiConfig → Request → M unit :=
  match v with
  | OnDisk => ThumbnailDisk.handlerUploadThumbnail
  | InMemory => ThumbnailMemory.handlerUploadThumbnail
  end.

(** The same request with another body size. *)
Definition with_bodySize (r : Request) (n : Z) : Request :=
  {| r_PathValue_videoID := r_PathValue_videoID r; r_Header := r_Header r;
     r_bodySize := n; r_multipart := r_multipart r |}.

(** ** A concrete environment

    Used to run the handlers on explicit requests.  [updateFails] and
    [uploadFails] make the record store and the remote store fail;
    [streams] is what the probe reports. *)

Definition demoProber (streams : list Stream) : Prober := {|
  exec_ffprobe := λ _, Ok "{...}";
  json_Unmarshal := λ _, Ok streams;
|}.

Definition demoEnv (updateFails uploadFails : bool) (streams : list Stream) : Env := {|
  uuid_Parse := λ s, if String.eqb s "video-1" then Ok 1%N else Err "invalid UUID format";
  uuid_String := λ _, "video-1";
  auth_GetBearerToken := λ h,
    match h with
    | (_, t) :: _ => Ok t
    | [] => Err "no auth header included in request"
    end;
  auth_ValidateJWT := λ t _, if String.eqb t "token-of-7" then Ok 7%N else Err "invalid token";
  mime_ParseMediaType := λ s, s;
  rand_Read := λ _, Ok "random";
  base64_RawURLEncoding_EncodeToString := λ s, s;
  getAssetPath := λ id _, id +:+ ".png";
  getAssetDiskPath := λ _ p, "./assets/" +:+ p;
  getAssetURL := λ cfg p, "http://localhost:" +:+ port cfg +:+ "/assets/" +:+ p;
  getAssetFromURL := λ _, "old.png";
  os_Create_fault := λ _, None;
  os_CreateTemp_result := Ok "/tmp/tubely-upload.mp4-1";
  io_Copy_fault := λ _, None;
  os_Remove_fault := λ _, None;
  io_ReadAll_fault := None;
  Seek_fault := λ _, None;
  UpdateVideo_fault := λ _, if updateFails then Some "database is locked" else None;
  s3_Upload_result := λ bucket key _ _,
    if uploadFails then Err "connection refused" else Ok ("https://" +:+ bucket +:+ "/" +:+ key);
  prober := demoProber streams;
|}.

(** The environment [E] whose [os.Remove] fails as [fault] says. *)
Definition with_Remove_fault (E : Env) (fault : string → option error) : Env := {|
  uuid_Parse := uuid_Parse E;
  uuid_String := uuid_String E;
  auth_GetBearerToken := auth_GetBearerToken E;
  auth_ValidateJWT := auth_ValidateJWT E;
  mime_ParseMediaType := mime_ParseMediaType E;
  rand_Read := rand_Read E;
  base64_RawURLEncoding_EncodeToString := base64_RawURLEncoding_EncodeToString E;
  getAssetPath := getAssetPath E;
  getAssetDiskPath := getAssetDiskPath E;
  getAssetURL := getAssetURL E;
  getAssetFromURL := getAssetFromURL E;
  os_Create_fault := os_Create_fault E;
  os_CreateTemp_result := os_CreateTemp_result E;
  io_Copy_fault := io_Copy_fault E;
  os_Remove_fault := fault;
  io_ReadAll_fault := io_ReadAll_fault E;
  Seek_fault := Seek_fault E;
  UpdateVideo_fault := UpdateVideo_fault E;
  s3_Upload_result := s3_Upload_result E;
  prober := prober E;
|}.

Definition demoCfg : apiConfig :=
  {| jwtSecret := "secret"; port := "8091"; s3Bucket := "tubely" |}.

(** The record of video 1, owned by user 7, with or without references. *)
Definition demoVideo (thumb : option string) : Video :=
  {| ID := 1%N; UserID := 7%N; ThumbnailURL := thumb; VideoURL := None |}.

Definition demoWorld (thumb : option string) : World := {|
  w_db := {[ 1%N := demoVideo thumb ]};
  w_fs := {[ "./assets/old.png" := "old bytes" ]};
  w_videoThumbnails := ∅;
  w_s3 := ∅;
|}.

(** A request of user 7 for video 1 carrying one file part. *)
Definition demoRequest (field ctype : string) (size : Z) : Request := {|
  r_PathValue_videoID := "video-1";
  r_Header := [("Authorization", "token-of-7")];
  r_bodySize := size;
  r_multipart := Some [(field, {| fh_ContentType := ctype; fh_bytes := "bytes" |})];
|}.

(** ** All four handlers side by side *)

Inductive Handler :=
| ForThumbnail (v : ThumbnailVariant)
| ForVideo (v : VideoVariant).

Definition handlerOf (h : Handler) : Env → apiConfig → Request → M unit :=
  match h with
  | ForThumbnail v => handlerUploadThumbnail v
  | ForVideo v => handlerUploadVideo v
  end.

(** The form field a handler reads its file from. *)
Definition fileField (h : Handler) : string :=
  match h with
  | ForThumbnail _ => "thumbnail"
  | ForVideo _ => "video"
  end.

(** Every record of the store is filed under its own identifier. *)
Definition keyed_by_ID (db : gmap UUID Video) : Prop :=
  ∀ id v, db !! id = Some v → ID v = id.

Definition is_respond (e : Event) : bool :=
  match e with
  | EvRespond _ => true
  | _ => false
  end.

(** A request for the video named [videoID] carrying the token [token] and
    one file part. *)
Definition demoRequestOf (videoID token field ctype : string) : Request := {|
  r_PathValue_videoID := videoID;
  r_Header := [("Authorization", token)];
  r_bodySize := 1000;
  r_multipart := Some [(field, {| fh_ContentType := ctype; fh_bytes := "bytes" |})];
|}.

(** ** Predicates used in the statements *)

(** A stream the prober accepts: both dimensions strictly positive. *)
Definition usable (s : Stream) : Prop := 0 < Width s ∧ 0 < Height s.

(** No character of [s] is a colon. *)
Fixpoint no_colon (s : string) : Prop :=
  match s with
  | EmptyString => True
  | String c rest => c ≠ ":"%char ∧ no_colon rest
  end.

(** * Properties *)

(** ** The loop [gcd] computes the greatest common divisor *)

Lemma gcd_is_Zgcd (a b : Z) : 0 ≤ a → 0 ≤ b → gcd a b = Z.gcd a b.
Proof.
  funelim (gcd a b); intros Ha Hb.
  - subst b. rewrite Z.gcd_0_r, Z.abs_eq; done.
  - match goal with IH : _ → _ → gcd _ _ = Z.gcd _ _ |- _ => rewrite IH end.
    + rewrite Z.rem_mod_nonneg by lia.
      rewrite Z.gcd_comm, Z.gcd_mod by done. apply Z.gcd_comm.
    + done.
    + apply Z.rem_nonneg; lia.
Qed.

Lemma reduced_positive (w h : Z) :
  0 < w → 0 < h →
  0 < Z.quot w (Z.gcd w h) ∧ 0 < Z.quot h (Z.gcd w h) ∧
  Z.gcd (Z.quot w (Z.gcd w h)) (Z.quot h (Z.gcd w h)) = 1.
Proof.
  intros Hw Hh.
  assert (Hg : 0 < Z.gcd w h).
  { pose proof (Z.gcd_nonneg w h).
    destruct (Z.eq_dec (Z.gcd w h) 0) as [E|]; [|lia].
    apply Z.gcd_eq_0_l in E. lia. }
  rewrite !Z.quot_div_nonneg by lia.
  destruct (Z.gcd_divide_l w h) as [p Hp], (Z.gcd_divide_r w h) as [q Hq].
  assert (Hwp : w `div` Z.gcd w h = p) by (rewrite Hp at 1; apply Z.div_mul; lia).
  assert (Hhq : h `div` Z.gcd w h = q) by (rewrite Hq at 1; apply Z.div_mul; lia).
  split; [rewrite Hwp; nia|]. split; [rewrite Hhq; nia|].
  apply Z.gcd_div_gcd; [lia | done].
Qed.

(** ** Decimal output contains no colon *)

Lemma pretty_N_char_no_colon (x : N) : pretty_N_char x ≠ ":"%char.
Proof. unfold pretty_N_char. repeat case_match; done. Qed.

Lemma pretty_N_go_no_colon (x : N) (s : string) :
  no_colon s → no_colon (pretty_N_go x s).
Proof.
  revert s. induction (N.lt_wf_0 x) as [x _ IH]; intros s Hs.
  destruct (decide (x = 0)%N) as [->|Hx].
  - by rewrite pretty_N_go_0.
  - rewrite pretty_N_go_step by lia. apply IH.
    + apply N.div_lt; lia.
    + split; [apply pretty_N_char_no_colon | done].
Qed.

Lemma pretty_N_no_colon (x : N) : no_colon (pretty x).
Proof.
  unfold pretty, pretty_N. case_decide.
  - by split.
  - by apply pretty_N_go_no_colon.
Qed.

Lemma pretty_Z_no_colon (z : Z) : no_colon (pretty z).
Proof.
  destruct z as [|p|p]; unfold pretty, pretty_Z.
  - by split.
  - apply pretty_N_no_colon.
  - split; [done | apply pretty_N_no_colon].
Qed.

Lemma colon_split (s1 s2 t1 t2 : string) :
  no_colon s1 → no_colon s2 →
  s1 +:+ ":" +:+ t1 = s2 +:+ ":" +:+ t2 → s1 = s2 ∧ t1 = t2.
Proof.
  revert s2. induction s1 as [|c s1 IH]; intros [|d s2] H1 H2 Heq; simpl in *;
    unfold String.append in Heq; fold String.append in Heq.
  - injection Heq as ->. done.
  - destruct H2 as [Hd _]. injection Heq as Hcd _. congruence.
  - destruct H1 as [Hc _]. injection Heq as Hcd _. congruence.
  - destruct H1 as [_ H1], H2 as [_ H2]. injection Heq as -> Heq.
    destruct (IH s2 H1 H2) as [-> ->]; done.
Qed.

Lemma Sprintf_ratio_inj (a b c d : Z) :
  Sprintf_ratio a b = Sprintf_ratio c d → a = c ∧ b = d.
Proof.
  unfold Sprintf_ratio. intros H.
  apply colon_split in H as [Ha Hb]; try apply pretty_Z_no_colon.
  split; by apply (inj pretty).
Qed.

Lemma aspectOf_landscape (a b : Z) :
  aspectOf (Sprintf_ratio a b) = "landscape" ↔ a = 16 ∧ b = 9.
Proof.
  unfold aspectOf. split.
  - destruct (String.eqb_spec (Sprintf_ratio a b) Landscape) as [H|H]; [|done].
    intros _. by apply (Sprintf_ratio_inj a b 16 9).
  - by intros [-> ->].
Qed.

Lemma aspectOf_values (s : string) :
  aspectOf s = "landscape" ∨ aspectOf s = "portrait".
Proof. unfold aspectOf. destruct (String.eqb s Landscape); auto. Qed.

(** ** Stream selection *)

Lemma rangeStreams_skip (pre rest : list Stream) :
  Forall (λ s, ¬ usable s) pre → rangeStreams (pre ++ rest) = rangeStreams rest.
Proof.
  induction 1 as [|s pre Hs _ IH]; [done|]. simpl.
  destruct (Z.ltb_spec 0 (Width s)), (Z.ltb_spec 0 (Height s)); simpl; try done.
  destruct Hs. by split.
Qed.

Lemma rangeStreams_first (s : Stream) (rest : list Stream) :
  usable s →
  rangeStreams (s :: rest) =
    Ok (Sprintf_ratio (Z.quot (Width s) (Z.gcd (Width s) (Height s)))
                      (Z.quot (Height s) (Z.gcd (Width s) (Height s)))).
Proof.
  intros [Hw Hh]. simpl.
  destruct (Z.ltb_spec 0 (Width s)); [|lia].
  destruct (Z.ltb_spec 0 (Height s)); [|lia]. simpl.
  by rewrite gcd_is_Zgcd by lia.
Qed.

Lemma rangeStreams_none (streams : list Stream) :
  Forall (λ s, ¬ usable s) streams →
  rangeStreams streams = Err "no video stream with valid dimensions found".
Proof.
  intros H. rewrite <- (app_nil_r streams). by rewrite rangeStreams_skip.
Qed.

(** ** The handlers on explicit requests *)

Example thumbnail_disk_ok :
  let run := serve (ThumbnailDisk.handlerUploadThumbnail (demoEnv false false []) demoCfg
                      (demoRequest "thumbnail" "image/png" 1000))
                   (demoWorld (Some "http://localhost:8091/assets/old.png")) in
  status <$> response run = Some 200 ∧
  w_fs (final run) !! "./assets/old.png" = None ∧
  w_fs (final run) !! "./assets/random.png" = Some "bytes" ∧
  ThumbnailURL <$> (w_db (final run) !! 1%N) =
    Some (Some "http://localhost:8091/assets/random.png").
Proof. vm_compute. done. Qed.

Example video_classified_ok :
  let run := serve (VideoClassified.handlerUploadVideo
                      (demoEnv false false [ {| Width := 1920; Height := 1080 |} ]) demoCfg
                      (demoRequest "video" "video/mp4" 1000))
                   (demoWorld None) in
  response run = Some {| status := 201; body := BodyEmpty |} ∧
  w_s3 (final run) !! "landscape/random" = Some ("bytes", "video/mp4") ∧
  VideoURL <$> (w_db (final run) !! 1%N) = Some (Some "https://tubely/landscape/random") ∧
  events run =
    [ EvGetVideo 1%N; EvCreateTemp "/tmp/tubely-upload.mp4-1";
      EvCopy "/tmp/tubely-upload.mp4-1" true; EvProbe "/tmp/tubely-upload.mp4-1";
      EvUpload "landscape/random" true;
      EvUpdateVideo (set_VideoURL (demoVideo None) (Some "https://tubely/landscape/random")) true;
      EvRespond 201; EvRemove "/tmp/tubely-upload.mp4-1" true;
      EvClose "/tmp/tubely-upload.mp4-1"; EvClose "video" ].
Proof. vm_compute. done. Qed.

(** ** The prober on the examples of the specification *)

Example ratio_7_5 :
  getVideoAspectRatio (demoProber [ {| Width := 7; Height := 5 |} ]) "in.mp4" = Ok "7:5".
Proof. reflexivity. Qed.

Example ratio_3840_2160 :
  getVideoAspectRatio (demoProber [ {| Width := 3840; Height := 2160 |} ]) "in.mp4"
  = Ok "16:9".
Proof. reflexivity. Qed.

Example ratio_skips_unusable :
  getVideoAspectRatio
    (demoProber [ {| Width := 0; Height := 0 |}; {| Width := -4; Height := 3 |};
                  {| Width := 1080; Height := 1920 |}; {| Width := 7; Height := 5 |} ])
    "in.mp4"
  = Ok "9:16".
Proof. reflexivity. Qed.

Example aspect_of_examples :
  aspectOf "16:9" = "landscape" ∧ aspectOf "9:16" = "portrait" ∧ aspectOf "1:1" = "portrait".
Proof. done. Qed.

(** ** Claims about the prober *)

(** The ratio returned for the first usable stream. *)
Lemma probe_first_usable
    (P : Prober) (filePath stdout : string) (pre rest : list Stream) (s : Stream) :
  exec_ffprobe P filePath = Ok stdout →
  json_Unmarshal P stdout = Ok (pre ++ s :: rest)%list →
  Forall (λ s, ¬ usable s) pre →
  usable s →
  getVideoAspectRatio P filePath =
    Ok (Sprintf_ratio (Width s `div` Z.gcd (Width s) (Height s))
                      (Height s `div` Z.gcd (Width s) (Height s))).
Proof.
  intros Hrun Hjson Hpre Hs.
  unfold getVideoAspectRatio. rewrite Hrun, Hjson, length_app. simpl length.
  destruct (Z.eqb_spec (Z.of_nat (length pre + S (length rest))) 0); [lia|].
  rewrite rangeStreams_skip by done.
  rewrite rangeStreams_first by done.
  destruct Hs as [Hw Hh].
  assert (0 < Z.gcd (Width s) (Height s)).
  { pose proof (Z.gcd_nonneg (Width s) (Height s)).
    destruct (Z.eq_dec (Z.gcd (Width s) (Height s)) 0) as [E|]; [|lia].
    apply Z.gcd_eq_0_l in E. lia. }
  by rewrite !Z.quot_div_nonneg by lia.
Qed.

(** C4.  When the probe reports a stream list whose first usable stream has
    width [w] and height [h] (both strictly positive), the prober returns
    the text [a:b] where [a = w / g], [b = h / g] and [g] is the greatest
    common divisor of [w] and [h]; [a] and [b] are strictly positive, have no
    common divisor left, and the closure [gcd] of the source computes [g]. *)
Theorem getVideoAspectRatio_reduces
    (P : Prober) (filePath stdout : string) (pre rest : list Stream) (s : Stream) :
  exec_ffprobe P filePath = Ok stdout →
  json_Unmarshal P stdout = Ok (pre ++ s :: rest)%list →
  Forall (λ s, ¬ usable s) pre →
  usable s →
  let g := Z.gcd (Width s) (Height s) in
  let a := Width s `div` g in
  let b := Height s `div` g in
  getVideoAspectRatio P filePath = Ok (pretty a +:+ ":" +:+ pretty b) ∧
  gcd (Width s) (Height s) = g ∧
  0 < a ∧ 0 < b ∧ a * g = Width s ∧ b * g = Height s ∧ Z.gcd a b = 1.
Proof.
  intros Hrun Hjson Hpre Hs g a b.
  split; [by apply (probe_first_usable P filePath stdout pre rest s)|].
  destruct Hs as [Hw Hh].
  destruct (reduced_positive _ _ Hw Hh) as (Ha & Hb & Hab).
  assert (Hg : 0 < g).
  { subst g. pose proof (Z.gcd_nonneg (Width s) (Height s)).
    destruct (Z.eq_dec (Z.gcd (Width s) (Height s)) 0) as [E|]; [|lia].
    apply Z.gcd_eq_0_l in E. lia. }
  rewrite !Z.quot_div_nonneg in Ha, Hb by lia.
  rewrite !(Z.quot_div_nonneg _ (Z.gcd _ _)) in Hab by lia.
  split; [apply gcd_is_Zgcd; lia|].
  split; [done|]. split; [done|].
  split; [|split; [|done]].
  - subst a g. destruct (Z.gcd_divide_l (Width s) (Height s)) as [p Hp].
    rewrite Hp at 1. rewrite Z.div_mul by lia. lia.
  - subst b g. destruct (Z.gcd_divide_r (Width s) (Height s)) as [q Hq].
    rewrite Hq at 1. rewrite Z.div_mul by lia. lia.
Qed.

Lemma getVideoAspectRatio_reduces_witness :
  getVideoAspectRatio (demoProber [ {| Width := 0; Height := 9 |};
                                    {| Width := 3840; Height := 2160 |} ]) "in.mp4"
  = Ok "16:9".
Proof.
  refine (proj1 (getVideoAspectRatio_reduces
                   (demoProber [ {| Width := 0; Height := 9 |};
                                 {| Width := 3840; Height := 2160 |} ])
                   "in.mp4" "{...}" [ {| Width := 0; Height := 9 |} ] []
                   {| Width := 3840; Height := 2160 |} _ _ _ _)).
  - reflexivity.
  - reflexivity.
  - constructor; [|constructor]. unfold usable; simpl; lia.
  - unfold usable; simpl; lia.
Defined.

(** ** Symbolic execution of a handler *)

Ltac unfold_steps :=
  unfold try_, reject, when_, respondWithError, respondWithJSON, WriteHeader,
    db_GetVideo, db_UpdateVideo, os_Create, os_CreateTemp, io_Copy, os_Remove,
    Seek_start, Upload, probe, io_ReadAll, deref, FormFile, runDeferred,
    get_world, modify, emit, defer, respond, return_, panic,
    mbind, M_bind, mret, M_ret.

(** Case analysis on the first call whose outcome the run depends on. *)
Ltac split_call :=
  match goal with
  | |- context [match ?x with _ => _ end] =>
      lazymatch x with
      | context [match _ with _ => _ end] => fail
      | _ => destruct x eqn:?
      end
  end.

Ltac run_step :=
  first
    [ progress rewrite ?lookup_insert_eq, ?lookup_delete_eq
    | progress unfold_steps
    | split_call ];
  cbn.

Ltac run_handler := unfold serve; unfold_steps; cbn; repeat run_step.

(** The same, taking the outcome of a call from a hypothesis when there is
    one. *)
Ltac use_known :=
  match goal with
  | H : ?x = _ |- context [match ?x with _ => _ end] => rewrite H
  end.

Ltac run_known :=
  unfold serve; unfold_steps; cbn; repeat (first [use_known; cbn | run_step]).

(** Membership of an event in an explicit trace. *)
Ltac in_trace :=
  repeat match goal with
         | H : _ ∈ _ :: _ |- _ => apply elem_of_cons in H as [H|H]
         | H : _ ∈ [] |- _ => by apply elem_of_nil in H
         | H : @eq Event _ _ |- _ => progress simplify_eq
         end.

(** Two outcomes recorded for the same call are the same outcome. *)
Ltac same_call :=
  simplify_eq;
  repeat match goal with
         | H1 : ?t = _, H2 : ?t = _ |- _ => rewrite H1 in H2; simplify_eq
         end.

Lemma classified_probe_failure (E : Env) (cfg : apiConfig) (r : Request) (w : World)
    (name : string) (e : error) :
  os_CreateTemp_result E = Ok name →
  getVideoAspectRatio (prober E) name = Err e →
  let run := serve (VideoClassified.handlerUploadVideo E cfg r) w in
  exit run = Returned ∧
  (∀ key ok, EvUpload key ok ∉ events run) ∧
  w_s3 (final run) = w_s3 w ∧
  w_db (final run) = w_db w ∧
  (EvProbe name ∈ events run →
   response run = Some {| status := 500;
                          body := BodyError "Failed to get aspect ratio of video" |}).
Proof.
  intros Htemp Hprobe. cbv zeta. unfold VideoClassified.handlerUploadVideo.
  run_handler; same_call.
  all: repeat split; try done; try (intros ?? Hin); try (intros Hin); in_trace.
Qed.

(** C6.  When the probe ran and its output was parsed into [streams]: the
    prober answers with the ratio of the first stream, in the reported order,
    whose width and height are both strictly positive; when no stream is
    usable (no stream at all, or only streams with a zero or negative
    dimension) it returns an error, one of the two "no stream" messages,
    which is never the message of a parse failure nor of a failed run of the
    tool.  In the handler such an error ends the request with status 500,
    without a panic, without any upload and without any change to the record
    store: no classification is made up. *)
Theorem no_usable_stream_is_an_error
    (E : Env) (cfg : apiConfig) (r : Request) (w : World)
    (filePath stdout : string) (streams : list Stream) :
  exec_ffprobe (prober E) filePath = Ok stdout →
  json_Unmarshal (prober E) stdout = Ok streams →
  (∀ pre s rest,
     streams = (pre ++ s :: rest)%list → Forall (λ s, ¬ usable s) pre → usable s →
     getVideoAspectRatio (prober E) filePath = rangeStreams [s] ∧
     ∃ ratio, rangeStreams [s] = Ok ratio) ∧
  (Forall (λ s, ¬ usable s) streams →
     ∃ e, getVideoAspectRatio (prober E) filePath = Err e ∧
          (streams = [] → e = "no streamsa found in video") ∧
          (streams ≠ [] → e = "no video stream with valid dimensions found") ∧
          (∀ inner, e ≠ "failed to parse ffprobe output: " +:+ inner) ∧
          (∀ inner, e ≠ "failed to run ffprobe: " +:+ inner) ∧
          (os_CreateTemp_result E = Ok filePath →
           let run := serve (VideoClassified.handlerUploadVideo E cfg r) w in
           exit run = Returned ∧
           (∀ key ok, EvUpload key ok ∉ events run) ∧
           w_s3 (final run) = w_s3 w ∧
           w_db (final run) = w_db w ∧
           (EvProbe filePath ∈ events run →
            response run = Some {| status := 500;
                                   body := BodyError "Failed to get aspect ratio of video" |}))).
Proof.
  intros Hrun Hjson. split.
  - intros pre s rest -> Hpre Hs.
    unfold getVideoAspectRatio. rewrite Hrun, Hjson, length_app. simpl length.
    destruct (Z.eqb_spec (Z.of_nat (length pre + S (length rest))) 0); [lia|].
    rewrite rangeStreams_skip by done.
    rewrite !rangeStreams_first by done. eauto.
  - intros Hnone.
    assert (Hres : ∃ e, getVideoAspectRatio (prober E) filePath = Err e ∧
              (streams = [] → e = "no streamsa found in video") ∧
              (streams ≠ [] → e = "no video stream with valid dimensions found")).
    { unfold getVideoAspectRatio. rewrite Hrun, Hjson.
      destruct streams as [|s streams].
      - eexists; split; [reflexivity|]. split; [reflexivity|]. intros H. by destruct H.
      - rewrite rangeStreams_none by done. simpl length.
        destruct (Z.eqb_spec (Z.of_nat (S (length streams))) 0); [lia|].
        eexists; split; [reflexivity|]. done. }
    destruct Hres as (e & He & Hnil & Hcons).
    exists e. split; [done|]. split; [done|]. split; [done|].
    assert (Hcase : e = "no streamsa found in video" ∨
                    e = "no video stream with valid dimensions found").
    { destruct streams; [left; by apply Hnil | right; by apply Hcons]. }
    split; [|split].
    + intros inner. destruct Hcase as [-> | ->]; discriminate.
    + intros inner. destruct Hcase as [-> | ->]; discriminate.
    + intros Htemp. by apply classified_probe_failure with (e := e).
Qed.

Lemma no_usable_stream_is_an_error_witness :
  ∃ e, getVideoAspectRatio
         (demoProber [ {| Width := 0; Height := 1080 |}; {| Width := -16; Height := -9 |} ])
         "/tmp/tubely-upload.mp4-1" = Err e ∧
       e = "no video stream with valid dimensions found".
Proof.
  destruct (no_usable_stream_is_an_error
              (demoEnv false false
                 [ {| Width := 0; Height := 1080 |}; {| Width := -16; Height := -9 |} ])
              demoCfg (demoRequest "video" "video/mp4" 1000) (demoWorld None)
              "/tmp/tubely-upload.mp4-1" "{...}"
              [ {| Width := 0; Height := 1080 |}; {| Width := -16; Height := -9 |} ]
              eq_refl eq_refl) as [_ H].
  destruct H as (e & He & _ & Hmsg & _).
  - repeat constructor; unfold usable; simpl; lia.
  - exists e. split; [exact He|]. by apply Hmsg.
Defined.

(** ** Classification *)

(** The key of an upload issued by the classifying handler is the
    classification of the probed ratio, a slash and the random token. *)
Lemma classified_upload_key (E : Env) (cfg : apiConfig) (r : Request) (w : World)
    (key : string) (ok : bool) :
  EvUpload key ok ∈ events (serve (VideoClassified.handlerUploadVideo E cfg r) w) →
  ∃ name ratio token,
    os_CreateTemp_result E = Ok name ∧
    getVideoAspectRatio (prober E) name = Ok ratio ∧
    key = aspectOf ratio +:+ "/" +:+ token.
Proof.
  unfold VideoClassified.handlerUploadVideo. run_handler.
  all: intros Hin; in_trace; do 3 eexists; repeat split; eauto.
Qed.

(** C1 (as the code has it).  For a probed video whose first usable stream
    reduces to the ratio [a:b]: the classification is landscape exactly when
    [a:b] is 16:9, and portrait for every other ratio, 9:16 included; there
    is no third class.  The comparison is an exact match of the ratio text
    against the landscape preset.  The classification is what prefixes the
    key of the upload. *)
Theorem classification_landscape_or_portrait
    (E : Env) (cfg : apiConfig) (r : Request) (w : World)
    (filePath stdout : string) (pre rest : list Stream) (s : Stream) :
  exec_ffprobe (prober E) filePath = Ok stdout →
  json_Unmarshal (prober E) stdout = Ok (pre ++ s :: rest)%list →
  Forall (λ s, ¬ usable s) pre →
  usable s →
  let g := Z.gcd (Width s) (Height s) in
  let a := Width s `div` g in
  let b := Height s `div` g in
  ∃ ratio,
    getVideoAspectRatio (prober E) filePath = Ok ratio ∧
    (a = 16 ∧ b = 9 → aspectOf ratio = "landscape") ∧
    (a = 9 ∧ b = 16 → aspectOf ratio = "portrait") ∧
    (¬ (a = 16 ∧ b = 9) → aspectOf ratio = "portrait") ∧
    (os_CreateTemp_result E = Ok filePath →
     ∀ key ok,
       EvUpload key ok ∈ events (serve (VideoClassified.handlerUploadVideo E cfg r) w) →
       ∃ token, key = aspectOf ratio +:+ "/" +:+ token).
Proof.
  intros Hrun Hjson Hpre Hs g a b.
  pose proof (probe_first_usable _ _ _ _ _ _ Hrun Hjson Hpre Hs) as Hratio.
  fold g a b in Hratio.
  exists (Sprintf_ratio a b). split; [done|].
  assert (Hland : a = 16 ∧ b = 9 → aspectOf (Sprintf_ratio a b) = "landscape")
    by apply aspectOf_landscape.
  assert (Hport : ¬ (a = 16 ∧ b = 9) → aspectOf (Sprintf_ratio a b) = "portrait").
  { intros Hne. destruct (aspectOf_values (Sprintf_ratio a b)) as [H|H]; [|done].
    by apply aspectOf_landscape in H. }
  split; [done|]. split; [intros [-> ->]; apply Hport; lia|]. split; [done|].
  intros Htemp key ok Hin.
  apply classified_upload_key in Hin as (name & ratio & token & Hname & Hprobe & ->).
  same_call. eauto.
Qed.

Lemma classification_landscape_or_portrait_witness :
  ∃ ratio,
    getVideoAspectRatio (demoProber [ {| Width := 1080; Height := 1920 |} ])
      "/tmp/tubely-upload.mp4-1" = Ok ratio ∧
    aspectOf ratio = "portrait".
Proof.
  destruct (classification_landscape_or_portrait
              (demoEnv false false [ {| Width := 1080; Height := 1920 |} ])
              demoCfg (demoRequest "video" "video/mp4" 1000) (demoWorld None)
              "/tmp/tubely-upload.mp4-1" "{...}" [] []
              {| Width := 1080; Height := 1920 |} eq_refl eq_refl)
    as (ratio & Hratio & _ & Hport & _).
  - constructor.
  - unfold usable; simpl; lia.
  - exists ratio. split; [exact Hratio|]. apply Hport. split; reflexivity.
Defined.

(** C1 as stated fails: a square video is neither 16:9 nor 9:16, and the
    handler files it under portrait, not under a third class. *)
Lemma classification_unclassified_counterexample :
  let streams := [ {| Width := 1000; Height := 1000 |} ] in
  let run := serve (VideoClassified.handlerUploadVideo (demoEnv false false streams) demoCfg
                      (demoRequest "video" "video/mp4" 1000))
                   (demoWorld None) in
  getVideoAspectRatio (demoProber streams) "/tmp/tubely-upload.mp4-1" = Ok "1:1" ∧
  "1:1" ≠ Landscape ∧ "1:1" ≠ Portrait ∧
  aspectOf "1:1" = "portrait" ∧
  aspectOf "1:1" ≠ "unclassified" ∧
  EvUpload "portrait/random" true ∈ events run ∧
  w_s3 (final run) !! "portrait/random" = Some ("bytes", "video/mp4").
Proof.
  vm_compute. repeat split; try done.
  repeat constructor.
Qed.

(** ** Claims about the video handlers *)

Ltac unfold_video v :=
  destruct v; unfold handlerUploadVideo,
    VideoPlain.handlerUploadVideo, VideoClassified.handlerUploadVideo.

(** C3.  In both video handlers, when the upload to the remote store fails
    the request is answered with status 500, the record store is exactly as
    it was before the request (so the record's video reference keeps its
    prior value), and no update of the record is issued. *)
Theorem upload_failure_keeps_record
    (v : VideoVariant) (E : Env) (cfg : apiConfig) (r : Request) (w : World) (key : string) :
  let run := serve (handlerUploadVideo v E cfg r) w in
  EvUpload key false ∈ events run →
  response run = Some {| status := 500; body := BodyError "Error uploading video to server" |} ∧
  exit run = Returned ∧
  w_db (final run) = w_db w ∧
  w_s3 (final run) = w_s3 w ∧
  (∀ rec ok, EvUpdateVideo rec ok ∉ events run).
Proof.
  cbv zeta. unfold_video v; run_handler.
  all: intros Hin; in_trace.
  all: repeat split; try done; intros ?? Hup; in_trace.
Qed.

Lemma upload_failure_keeps_record_witness :
  let run := serve (handlerUploadVideo Classified
                      (demoEnv false true [ {| Width := 1920; Height := 1080 |} ]) demoCfg
                      (demoRequest "video" "video/mp4" 1000))
                   (demoWorld None) in
  status <$> response run = Some 500 ∧ w_db (final run) = w_db (demoWorld None).
Proof.
  destruct (upload_failure_keeps_record Classified
              (demoEnv false true [ {| Width := 1920; Height := 1080 |} ]) demoCfg
              (demoRequest "video" "video/mp4" 1000) (demoWorld None) "landscape/random")
    as (Hresp & _ & Hdb & _).
  - vm_compute. repeat constructor.
  - split; [by rewrite Hresp | exact Hdb].
Defined.

(** C5 as stated fails: the removal is deferred and its error is dropped.
    When [os.Remove] fails, the handler still answers (here 201, after a
    complete upload) and the staging file is left on disk. *)
Lemma staging_file_left_counterexample :
  let E := with_Remove_fault (demoEnv false false []) (λ _, Some "operation not permitted") in
  let run := serve (handlerUploadVideo Plain E demoCfg (demoRequest "video" "video/mp4" 1000))
                   (demoWorld None) in
  EvCreateTemp "/tmp/tubely-upload.mp4-1" ∈ events run ∧
  response run = Some {| status := 201; body := BodyEmpty |} ∧
  w_fs (final run) !! "/tmp/tubely-upload.mp4-1" = Some "bytes".
Proof.
  vm_compute. repeat split; try done. repeat constructor.
Qed.

(** C5 (as the code has it).  In both video handlers, once the temporary
    staging file has been created, [os.Remove] is called on it on every exit
    path: it is the first of the deferred calls, followed by the two
    [Close].  The outcome of that call is not looked at.  The file is absent
    afterwards exactly when the call succeeded; when the call fails the file
    stays on disk. *)
Theorem staging_file_removal_always_issued
    (v : VideoVariant) (E : Env) (cfg : apiConfig) (r : Request) (w : World) (name : string) :
  let run := serve (handlerUploadVideo v E cfg r) w in
  EvCreateTemp name ∈ events run →
  ∃ earlier ok,
    events run = (earlier ++ [EvRemove name ok; EvClose name; EvClose "video"])%list ∧
    EvCreateTemp name ∈ earlier ∧
    (ok = true ↔ os_Remove_fault E name = None) ∧
    (ok = true → w_fs (final run) !! name = None) ∧
    (ok = false → is_Some (w_fs (final run) !! name)).
Proof.
  cbv zeta. unfold_video v; run_handler.
  all: intros Hin; in_trace.
  all: match goal with
       | |- ∃ e ok, ?l = _ ∧ _ => exists (take (length l - 3) l); eexists
       end; split; [reflexivity|]; cbn.
  all: split; [repeat constructor|].
  all: split; [split; congruence|].
  all: split; intros Hok; try discriminate Hok.
  all: rewrite ?lookup_delete_eq, ?lookup_insert_eq; eauto.
Qed.

Lemma staging_file_removal_always_issued_witness :
  let run := serve (handlerUploadVideo Plain (demoEnv true false []) demoCfg
                      (demoRequest "video" "video/mp4" 1000))
                   (demoWorld None) in
  status <$> response run = Some 500 ∧
  w_fs (final run) !! "/tmp/tubely-upload.mp4-1" = None.
Proof.
  destruct (staging_file_removal_always_issued Plain (demoEnv true false []) demoCfg
              (demoRequest "video" "video/mp4" 1000) (demoWorld None)
              "/tmp/tubely-upload.mp4-1") as (earlier & ok & _ & _ & Hok & Hgone & _).
  - vm_compute. repeat constructor.
  - split; [reflexivity|]. apply Hgone, Hok. reflexivity.
Defined.

(** ** Claims about the thumbnail handlers *)

(** C7.  In the disk variant of the thumbnail handler, a removal of a file
    is only ever issued right after an update of the record that succeeded,
    and nowhere else in the run: at that point the record store already
    holds the record with its new thumbnail reference, and the file removed
    is the one derived from the reference the record had before.  When the
    removal fails the request is answered with status 500 although the store
    keeps the updated record; when it succeeds the answer is 200 with that
    record. *)
Theorem old_thumbnail_removed_after_commit
    (E : Env) (cfg : apiConfig) (r : Request) (w : World) (path : string) (ok : bool) :
  let run := serve (ThumbnailDisk.handlerUploadThumbnail E cfg r) w in
  EvRemove path ok ∈ events run →
  ∃ rec earlier later,
    events run = (earlier ++ [EvUpdateVideo rec true; EvRemove path ok] ++ later)%list ∧
    (∀ p o, EvRemove p o ∉ earlier) ∧
    (∀ p o, EvRemove p o ∉ later) ∧
    w_db (final run) = <[ID rec := rec]> (w_db w) ∧
    (∃ assetPath, ThumbnailURL rec = Some (getAssetURL E cfg assetPath)) ∧
    (∃ id old oldURL,
       uuid_Parse E (r_PathValue_videoID r) = Ok id ∧
       w_db w !! id = Some old ∧
       ThumbnailURL old = Some oldURL ∧
       rec = set_ThumbnailURL old (ThumbnailURL rec) ∧
       path = "./assets/" +:+ getAssetFromURL E oldURL) ∧
    (ok = false →
     response run = Some {| status := 500; body := BodyError "Error removing old thumbnail" |}) ∧
    (ok = true → response run = Some {| status := 200; body := BodyVideo rec |}).
Proof.
  cbv zeta. unfold ThumbnailDisk.handlerUploadThumbnail. run_handler.
  all: intros Hin; in_trace.
  all: match goal with
       | |- ∃ rec earlier later, ?l = _ ∧ _ =>
           eexists _, (take 3 l), (drop 5 l)
       end; cbn.
  all: split; [reflexivity|].
  all: split; [intros ?? Hrm; in_trace|].
  all: split; [intros ?? Hrm; in_trace|].
  all: split; [reflexivity|].
  all: split; [eexists; reflexivity|].
  all: split; [do 3 eexists; repeat split; eauto|].
  all: split; intros; simplify_eq; reflexivity.
Qed.

Lemma old_thumbnail_removed_after_commit_witness :
  let w := with_fs (delete "./assets/old.png")
             (demoWorld (Some "http://localhost:8091/assets/old.png")) in
  let run := serve (ThumbnailDisk.handlerUploadThumbnail (demoEnv false false []) demoCfg
                      (demoRequest "thumbnail" "image/png" 1000)) w in
  response run = Some {| status := 500; body := BodyError "Error removing old thumbnail" |} ∧
  ThumbnailURL <$> (w_db (final run) !! 1%N) =
    Some (Some "http://localhost:8091/assets/random.png").
Proof.
  destruct (old_thumbnail_removed_after_commit (demoEnv false false []) demoCfg
              (demoRequest "thumbnail" "image/png" 1000)
              (with_fs (delete "./assets/old.png")
                 (demoWorld (Some "http://localhost:8091/assets/old.png")))
              "./assets/old.png" false)
    as (rec & earlier & later & _ & _ & _ & _ & _ & _ & Hfail & _).
  - vm_compute. repeat constructor.
  - split; [by apply Hfail | reflexivity].
Defined.

(** C9.  In the disk variant of the thumbnail handler the record's thumbnail
    reference is dereferenced without a nil check.  For a record whose
    reference is nil: as soon as the new file has been written the handler
    panics without having answered (and it panics in no other case); the
    update of the record and the removal of the old file are never reached,
    so neither of their error answers nor the success answer can be given,
    and the record store is left as it was. *)
Theorem nil_thumbnail_reference_panics
    (E : Env) (cfg : apiConfig) (r : Request) (w : World) (id : UUID) (rec : Video) :
  uuid_Parse E (r_PathValue_videoID r) = Ok id →
  w_db w !! id = Some rec →
  ThumbnailURL rec = None →
  let run := serve (ThumbnailDisk.handlerUploadThumbnail E cfg r) w in
  (∀ p, EvCopy p true ∈ events run → exit run = Panicked ∧ response run = None) ∧
  (exit run = Panicked → ∃ p, EvCopy p true ∈ events run) ∧
  (∀ v ok, EvUpdateVideo v ok ∉ events run) ∧
  (∀ p ok, EvRemove p ok ∉ events run) ∧
  w_db (final run) = w_db w ∧
  status <$> response run ≠ Some 200 ∧
  body <$> response run ≠ Some (BodyError "Couldn't update video data") ∧
  body <$> response run ≠ Some (BodyError "Error removing old thumbnail").
Proof.
  intros Hid Hrec Hnil. cbv zeta.
  unfold ThumbnailDisk.handlerUploadThumbnail. run_handler; same_call.
  all: try (rewrite Hnil in *; simplify_eq).
  all: repeat split; try done; intros; try (intro Hx); in_trace.
  all: eexists; repeat constructor.
Qed.

Lemma nil_thumbnail_reference_panics_witness :
  let run := serve (ThumbnailDisk.handlerUploadThumbnail (demoEnv false false []) demoCfg
                      (demoRequest "thumbnail" "image/png" 1000))
                   (demoWorld None) in
  exit run = Panicked ∧ response run = None.
Proof.
  destruct (nil_thumbnail_reference_panics (demoEnv false false []) demoCfg
              (demoRequest "thumbnail" "image/png" 1000) (demoWorld None)
              1%N (demoVideo None) eq_refl eq_refl eq_refl) as [H _].
  apply (H "./assets/random.png"). vm_compute. repeat constructor.
Defined.

(** When the update of the record fails, the memory variant answers 500 and
    leaves the map [videoThumbnails] without any entry for the video: the
    map is the one before the request minus that key. *)
Lemma memory_rollback (E : Env) (cfg : apiConfig) (r : Request) (w : World) (rec : Video) :
  let run := serve (ThumbnailMemory.handlerUploadThumbnail E cfg r) w in
  EvUpdateVideo rec false ∈ events run →
  response run = Some {| status := 500; body := BodyError "Couldn't update video data" |} ∧
  w_db (final run) = w_db w ∧
  ∃ videoID,
    uuid_Parse E (r_PathValue_videoID r) = Ok videoID ∧
    w_videoThumbnails (final run) = delete videoID (w_videoThumbnails w) ∧
    (w_videoThumbnails w !! videoID = None →
     w_videoThumbnails (final run) = w_videoThumbnails w).
Proof.
  cbv zeta. unfold ThumbnailMemory.handlerUploadThumbnail. run_handler.
  all: intros Hin; in_trace.
  all: split; [reflexivity|]; split; [reflexivity|].
  all: eexists; split; [reflexivity|].
  all: rewrite delete_insert_eq; split; [reflexivity|].
  all: intros Hnone; by apply delete_id.
Qed.

(** C10 fails on the code.  When the video already has a thumbnail in the
    map, a new upload is stored over it, and when the update of the record
    then fails the rollback deletes the entry: the request is answered 500,
    the record store is as before, but the map has lost the previous
    thumbnail and so differs from the map before the request. *)
Theorem memory_rollback_loses_previous_thumbnail
    (E : Env) (cfg : apiConfig) (r : Request) (w : World)
    (videoID : UUID) (old : thumbnail) (rec : Video) :
  uuid_Parse E (r_PathValue_videoID r) = Ok videoID →
  w_videoThumbnails w !! videoID = Some old →
  let run := serve (ThumbnailMemory.handlerUploadThumbnail E cfg r) w in
  EvUpdateVideo rec false ∈ events run →
  response run = Some {| status := 500; body := BodyError "Couldn't update video data" |} ∧
  w_db (final run) = w_db w ∧
  w_videoThumbnails (final run) !! videoID = None ∧
  w_videoThumbnails (final run) ≠ w_videoThumbnails w.
Proof.
  intros Hid Hold run Hfail.
  destruct (memory_rollback E cfg r w rec Hfail) as (Hresp & Hdb & id & Hid' & Hmap & _).
  fold run in Hresp, Hdb, Hmap.
  assert (id = videoID) as -> by congruence.
  assert (Hgone : w_videoThumbnails (final run) !! videoID = None)
    by (rewrite Hmap; apply lookup_delete_eq).
  repeat split; try done.
  intros Heq. rewrite Heq, Hold in Hgone. discriminate.
Qed.

Lemma memory_rollback_loses_previous_thumbnail_witness :
  let old := {| data := "old bytes"; mediaType := "image/png" |} in
  let w := with_videoThumbnails (insert 1%N old)
             (demoWorld (Some "http://localhost:8091/api/thumbnails/video-1")) in
  let run := serve (ThumbnailMemory.handlerUploadThumbnail (demoEnv true false []) demoCfg
                      (demoRequest "thumbnail" "image/jpeg" 1000)) w in
  w_videoThumbnails w !! 1%N = Some old ∧
  response run = Some {| status := 500; body := BodyError "Couldn't update video data" |} ∧
  w_videoThumbnails (final run) !! 1%N = None.
Proof.
  split; [vm_compute; reflexivity|].
  destruct (memory_rollback_loses_previous_thumbnail (demoEnv true false []) demoCfg
              (demoRequest "thumbnail" "image/jpeg" 1000)
              (with_videoThumbnails
                 (insert 1%N {| data := "old bytes"; mediaType := "image/png" |})
                 (demoWorld (Some "http://localhost:8091/api/thumbnails/video-1")))
              1%N {| data := "old bytes"; mediaType := "image/png" |}
              (set_ThumbnailURL
                 (demoVideo (Some "http://localhost:8091/api/thumbnails/video-1"))
                 (Some "http://localhost:8091/api/thumbnails/video-1"))
              eq_refl) as (Hresp & _ & Hgone & _).
  - vm_compute. reflexivity.
  - vm_compute. repeat constructor.
  - split; [exact Hresp | exact Hgone].
Defined.

(** ** Claims about input validation *)




(** C8 as stated fails for thumbnails: neither thumbnail handler bounds the
    request.  A request far larger than [maxMemory] and [maxVideoSize] is
    served like any other. *)
Lemma request_size_thumbnail_counterexample :
  let size := 2 ^ 40 in
  let run := serve (handlerUploadThumbnail OnDisk (demoEnv false false []) demoCfg
                      (demoRequest "thumbnail" "image/png" size))
                   (demoWorld (Some "http://localhost:8091/assets/old.png")) in
  maxMemory < size ∧ maxVideoSize < size ∧
  status <$> response run = Some 200 ∧
  w_fs (final run) !! "./assets/random.png" = Some "bytes".
Proof.
  vm_compute. repeat split; done.
Qed.

(** C8 (as the code has it).  For a request whose identifier and token are
    accepted: both video handlers answer 400 as soon as the body is larger
    than [maxVideoSize], before the record store or the file system is
    touched.  The thumbnail handlers have no such bound: their run does not
    depend on the size of the body. *)
Theorem request_size_bound
    (E : Env) (cfg : apiConfig) (r : Request) (w : World) (id uid : UUID) (token : string) :
  uuid_Parse E (r_PathValue_videoID r) = Ok id →
  auth_GetBearerToken E (r_Header r) = Ok token →
  auth_ValidateJWT E token (jwtSecret cfg) = Ok uid →
  (maxVideoSize < r_bodySize r →
   ∀ v,
     let run := serve (handlerUploadVideo v E cfg r) w in
     response run = Some {| status := 400; body := BodyError "File size too big" |} ∧
     exit run = Returned ∧ final run = w ∧ events run = [EvRespond 400]) ∧
  (∀ tv n,
     serve (handlerUploadThumbnail tv E cfg (with_bodySize r n)) w =
     serve (handlerUploadThumbnail tv E cfg r) w).
Proof.
  intros Hid Htok Hjwt. split.
  - intros Hsize v. cbv zeta. apply Z.ltb_lt in Hsize.
    unfold_video v; unfold ParseMultipartForm.
    all: run_known.
    all: repeat split; reflexivity.
  - intros [] n; reflexivity.
Qed.

Lemma request_size_bound_witness :
  let r := demoRequest "video" "video/mp4" (maxVideoSize + 1) in
  let run := serve (handlerUploadVideo Plain (demoEnv false false []) demoCfg r)
                   (demoWorld None) in
  response run = Some {| status := 400; body := BodyError "File size too big" |} ∧
  final run = demoWorld None.
Proof.
  destruct (request_size_bound (demoEnv false false []) demoCfg
              (demoRequest "video" "video/mp4" (maxVideoSize + 1)) (demoWorld None)
              1%N 7%N "token-of-7" eq_refl eq_refl eq_refl) as [Hvideo _].
  destruct (Hvideo ltac:(vm_compute; reflexivity) Plain) as (Hresp & _ & Hfinal & _).
  split; [exact Hresp | exact Hfinal].
Defined.

(** * Further properties of the handlers and the prober *)

(** ** Identification and authentication *)

Ltac unfold_handler h :=
  destruct h as [[]|[]];
  unfold handlerOf, handlerUploadThumbnail, handlerUploadVideo,
    ThumbnailDisk.handlerUploadThumbnail, ThumbnailMemory.handlerUploadThumbnail,
    VideoPlain.handlerUploadVideo, VideoClassified.handlerUploadVideo.

(** X1.  In all four handlers a request whose identifier does not parse is
    answered 400, and one whose token is missing or not valid is answered
    401; in each case the answer is the only call made: the record store is
    not read and nothing is changed. *)
Theorem unauthenticated_request_touches_nothing
    (h : Handler) (E : Env) (cfg : apiConfig) (r : Request) (w : World) :
  let run := serve (handlerOf h E cfg r) w in
  (∀ e, uuid_Parse E (r_PathValue_videoID r) = Err e →
     status <$> response run = Some 400 ∧ exit run = Returned ∧
     final run = w ∧ events run = [EvRespond 400]) ∧
  (∀ id e, uuid_Parse E (r_PathValue_videoID r) = Ok id →
     auth_GetBearerToken E (r_Header r) = Err e →
     response run = Some {| status := 401; body := BodyError "Couldn't find JWT" |} ∧
     exit run = Returned ∧ final run = w ∧ events run = [EvRespond 401]) ∧
  (∀ id token e, uuid_Parse E (r_PathValue_videoID r) = Ok id →
     auth_GetBearerToken E (r_Header r) = Ok token →
     auth_ValidateJWT E token (jwtSecret cfg) = Err e →
     response run = Some {| status := 401; body := BodyError "Couldn't validate JWT" |} ∧
     exit run = Returned ∧ final run = w ∧ events run = [EvRespond 401]).
Proof.
  cbv zeta. split; [|split].
  - intros e Hid. unfold_handler h; run_known; repeat split; reflexivity.
  - intros id e Hid Htok. unfold_handler h; run_known; repeat split; reflexivity.
  - intros id token e Hid Htok Hjwt. unfold_handler h; run_known; repeat split; reflexivity.
Qed.

Lemma unauthenticated_request_touches_nothing_witness :
  let run := serve (handlerOf (ForVideo Classified) (demoEnv false false []) demoCfg
                      (demoRequestOf "video-1" "forged" "video" "video/mp4"))
                   (demoWorld None) in
  response run = Some {| status := 401; body := BodyError "Couldn't validate JWT" |} ∧
  final run = demoWorld None.
Proof.
  destruct (unauthenticated_request_touches_nothing (ForVideo Classified)
              (demoEnv false false []) demoCfg
              (demoRequestOf "video-1" "forged" "video" "video/mp4") (demoWorld None))
    as (_ & _ & H).
  destruct (H 1%N "forged" "invalid token" eq_refl eq_refl eq_refl) as (Hresp & _ & Hfinal & _).
  split; [exact Hresp | exact Hfinal].
Defined.


(** ** Who may change a record *)

(** X2.  In all four handlers, a caller with a valid token who is not the
    owner of the record changes nothing: the world after the run is the world
    before it, the answer is an error (400, 401 or 500, whichever check
    comes first in the handler), and once the record has been read the
    answer is 401. *)
Theorem non_owner_changes_nothing
    (h : Handler) (E : Env) (cfg : apiConfig) (r : Request) (w : World)
    (id uid : UUID) (token : string) (rec : Video) :
  uuid_Parse E (r_PathValue_videoID r) = Ok id →
  auth_GetBearerToken E (r_Header r) = Ok token →
  auth_ValidateJWT E token (jwtSecret cfg) = Ok uid →
  w_db w !! id = Some rec →
  UserID rec ≠ uid →
  let run := serve (handlerOf h E cfg r) w in
  final run = w ∧
  exit run = Returned ∧
  (∃ code msg,
     response run = Some {| status := code; body := BodyError msg |} ∧
     (code = 400 ∨ code = 401 ∨ code = 500)) ∧
  (EvGetVideo id ∈ events run →
   response run = Some {| status := 401; body := BodyError "Unauthorized for this video" |}).
Proof.
  intros Hid Htok Hjwt Hrec Hne. cbv zeta.
  assert (Hown : negb (UserID rec =? uid)%N = true)
    by (by apply negb_true_iff, N.eqb_neq).
  unfold_handler h; run_known.
  all: repeat split; try reflexivity.
  all: try (do 2 eexists; split; [reflexivity|]; auto).
  all: intros Hin; in_trace.
Qed.

Lemma non_owner_changes_nothing_witness :
  let w := {| w_db := {[ 1%N := {| ID := 1%N; UserID := 8%N;
                                     ThumbnailURL := None; VideoURL := None |} ]};
              w_fs := ∅; w_videoThumbnails := ∅; w_s3 := ∅ |} in
  let run := serve (handlerOf (ForThumbnail InMemory) (demoEnv false false []) demoCfg
                      (demoRequest "thumbnail" "image/png" 1000)) w in
  final run = w ∧
  response run = Some {| status := 401; body := BodyError "Unauthorized for this video" |}.
Proof.
  destruct (non_owner_changes_nothing (ForThumbnail InMemory) (demoEnv false false [])
              demoCfg (demoRequest "thumbnail" "image/png" 1000)
              {| w_db := {[ 1%N := {| ID := 1%N; UserID := 8%N;
                                        ThumbnailURL := None; VideoURL := None |} ]};
                 w_fs := ∅; w_videoThumbnails := ∅; w_s3 := ∅ |}
              1%N 7%N "token-of-7"
              {| ID := 1%N; UserID := 8%N; ThumbnailURL := None; VideoURL := None |}
              eq_refl eq_refl eq_refl)
    as (Hfinal & _ & _ & Hresp).
  - vm_compute. reflexivity.
  - simpl. discriminate.
  - split; [exact Hfinal|]. apply Hresp. vm_compute. repeat constructor.
Defined.

(** X3.  In all four handlers, a request for an identifier the record store
    does not hold changes nothing and is answered with an error; once the
    store has been asked the answer is 404.  The video handlers look the
    record up right after parsing the form, so there a well-formed request
    within the size bound is answered 404 whatever its file part is. *)
Theorem unknown_video_changes_nothing
    (h : Handler) (E : Env) (cfg : apiConfig) (r : Request) (w : World)
    (id uid : UUID) (token : string) :
  uuid_Parse E (r_PathValue_videoID r) = Ok id →
  auth_GetBearerToken E (r_Header r) = Ok token →
  auth_ValidateJWT E token (jwtSecret cfg) = Ok uid →
  w_db w !! id = None →
  let run := serve (handlerOf h E cfg r) w in
  final run = w ∧
  exit run = Returned ∧
  (∃ code msg,
     response run = Some {| status := code; body := BodyError msg |} ∧
     (code = 400 ∨ code = 404 ∨ code = 500)) ∧
  (EvGetVideo id ∈ events run →
   response run = Some {| status := 404; body := BodyError "Video not found" |}) ∧
  (∀ v form, h = ForVideo v → r_bodySize r ≤ maxVideoSize → r_multipart r = Some form →
   response run = Some {| status := 404; body := BodyError "Video not found" |}).
Proof.
  intros Hid Htok Hjwt Hrec. cbv zeta.
  unfold_handler h; run_known.
  all: repeat split; try reflexivity.
  all: try (do 2 eexists; split; [reflexivity|]; auto).
  all: try (intros Hin; by in_trace).
  all: intros v form Hv Hsize Hform; try discriminate Hv.
  all: unfold ParseMultipartForm in *; rewrite Hform in *.
  all: destruct (Z.ltb_spec maxVideoSize (r_bodySize r)); [lia | discriminate].
Qed.

Lemma unknown_video_changes_nothing_witness :
  let w := {| w_db := ∅; w_fs := ∅; w_videoThumbnails := ∅; w_s3 := ∅ |} in
  let run := serve (handlerOf (ForVideo Plain) (demoEnv false false []) demoCfg
                      (demoRequest "video" "video/mp4" 1000)) w in
  final run = w ∧
  response run = Some {| status := 404; body := BodyError "Video not found" |}.
Proof.
  destruct (unknown_video_changes_nothing (ForVideo Plain) (demoEnv false false [])
              demoCfg (demoRequest "video" "video/mp4" 1000)
              {| w_db := ∅; w_fs := ∅; w_videoThumbnails := ∅; w_s3 := ∅ |}
              1%N 7%N "token-of-7" eq_refl eq_refl eq_refl)
    as (Hfinal & _ & _ & _ & Hresp).
  - vm_compute. reflexivity.
  - split; [exact Hfinal|].
    apply (Hresp Plain [("video", {| fh_ContentType := "video/mp4"; fh_bytes := "bytes" |})]).
    + reflexivity.
    + vm_compute. discriminate.
    + reflexivity.
Defined.


(** ** The form and its file part *)

(** X4.  A form without the file field of the handler ([thumbnail] or
    [video]) is answered 500, not 400, and nothing is changed.  For the
    video handlers this is reached once the size bound, the record lookup
    and the owner check have passed. *)
Theorem missing_file_part_is_internal_error
    (h : Handler) (E : Env) (cfg : apiConfig) (r : Request) (w : World)
    (id uid : UUID) (token : string) (form : list (string * FilePart)) :
  uuid_Parse E (r_PathValue_videoID r) = Ok id →
  auth_GetBearerToken E (r_Header r) = Ok token →
  auth_ValidateJWT E token (jwtSecret cfg) = Ok uid →
  r_multipart r = Some form →
  lookupFile (fileField h) form = None →
  (∀ v, h = ForVideo v →
        r_bodySize r ≤ maxVideoSize ∧ ∃ rec, w_db w !! id = Some rec ∧ UserID rec = uid) →
  let run := serve (handlerOf h E cfg r) w in
  response run =
    Some {| status := 500;
            body := BodyError "something went wrong retrieving the form data" |} ∧
  exit run = Returned ∧
  final run = w ∧
  (∀ e, e ∈ events run → e = EvGetVideo id ∨ e = EvRespond 500).
Proof.
  intros Hid Htok Hjwt Hform Hnone Hgate. cbv zeta.
  destruct h as [tv|vv].
  - simpl in Hnone.
    destruct tv; unfold handlerOf, handlerUploadThumbnail,
      ThumbnailDisk.handlerUploadThumbnail, ThumbnailMemory.handlerUploadThumbnail,
      ParseMultipartForm.
    all: run_known; repeat split; try reflexivity.
    all: intros e Hin; in_trace; auto.
  - simpl in Hnone.
    destruct (Hgate vv eq_refl) as (Hsize & rec & Hrec & Howner).
    apply Z.ltb_ge in Hsize.
    assert (Hown : negb (UserID rec =? uid)%N = false)
      by (by apply negb_false_iff, N.eqb_eq).
    destruct vv; unfold handlerOf, handlerUploadVideo,
      VideoPlain.handlerUploadVideo, VideoClassified.handlerUploadVideo,
      ParseMultipartForm.
    all: run_known; repeat split; try reflexivity.
    all: intros e Hin; in_trace; auto.
Qed.

Lemma missing_file_part_is_internal_error_witness :
  let run := serve (handlerOf (ForVideo Plain) (demoEnv false false []) demoCfg
                      (demoRequest "thumbnail" "video/mp4" 1000))
                   (demoWorld None) in
  status <$> response run = Some 500 ∧ final run = demoWorld None.
Proof.
  destruct (missing_file_part_is_internal_error (ForVideo Plain) (demoEnv false false [])
              demoCfg (demoRequest "thumbnail" "video/mp4" 1000) (demoWorld None)
              1%N 7%N "token-of-7"
              [("thumbnail", {| fh_ContentType := "video/mp4"; fh_bytes := "bytes" |})]
              eq_refl eq_refl eq_refl eq_refl eq_refl)
    as (Hresp & _ & Hfinal & _).
  - intros v _. split; [vm_compute; discriminate|].
    exists (demoVideo None). split; [vm_compute; reflexivity | reflexivity].
  - split; [by rewrite Hresp | exact Hfinal].
Defined.

(** X5.  A body that is not a well-formed multipart form: the thumbnail
    handlers drop the parse error and fail on the file lookup with 500; the
    video handlers answer 400 with the message [File size too big], also
    when the body is within the bound.  Nothing is changed. *)
Theorem malformed_body_is_rejected
    (h : Handler) (E : Env) (cfg : apiConfig) (r : Request) (w : World)
    (id uid : UUID) (token : string) :
  uuid_Parse E (r_PathValue_videoID r) = Ok id →
  auth_GetBearerToken E (r_Header r) = Ok token →
  auth_ValidateJWT E token (jwtSecret cfg) = Ok uid →
  r_multipart r = None →
  let run := serve (handlerOf h E cfg r) w in
  response run =
    Some (match h with
          | ForThumbnail _ =>
              {| status := 500;
                 body := BodyError "something went wrong retrieving the form data" |}
          | ForVideo _ => {| status := 400; body := BodyError "File size too big" |}
          end) ∧
  exit run = Returned ∧
  final run = w ∧
  events run = [EvRespond (match h with ForThumbnail _ => 500 | ForVideo _ => 400 end)].
Proof.
  intros Hid Htok Hjwt Hform. cbv zeta.
  unfold_handler h; unfold ParseMultipartForm; run_known.
  all: repeat split; reflexivity.
Qed.

Lemma malformed_body_is_rejected_witness :
  let r := {| r_PathValue_videoID := "video-1"; r_Header := [("Authorization", "token-of-7")];
              r_bodySize := 12; r_multipart := None |} in
  let run := serve (handlerOf (ForVideo Classified) (demoEnv false false []) demoCfg r)
                   (demoWorld None) in
  r_bodySize r < maxVideoSize ∧
  response run = Some {| status := 400; body := BodyError "File size too big" |}.
Proof.
  split; [vm_compute; reflexivity|].
  apply (malformed_body_is_rejected (ForVideo Classified) (demoEnv false false []) demoCfg
           {| r_PathValue_videoID := "video-1"; r_Header := [("Authorization", "token-of-7")];
              r_bodySize := 12; r_multipart := None |}
           (demoWorld None) 1%N 7%N "token-of-7" eq_refl eq_refl eq_refl eq_refl).
Defined.


(** ** What a success and a failure leave behind *)

Ltac media_type_known :=
  repeat match goal with
         | H : negb (_ =? _)%string = false |- _ =>
             apply negb_false_iff, String.eqb_eq in H
         | H : negb (_ =? _)%N = false |- _ => apply negb_false_iff, N.eqb_eq in H
         | H : (_ <? _) = false |- _ => apply Z.ltb_ge in H
         end.

(** X6.  A video handler answers 201 only when: the caller owns the record,
    the body is within the bound, the part's media type is [video/mp4], and
    the remote store accepted the object.  The world is then exactly: the
    bucket with the uploaded bytes under the key (the random token, prefixed
    by the classification in the classifying variant) and content type
    [video/mp4]; the record with its video reference set to the location the
    store returned; the staging file created and, when its removal succeeds,
    deleted again (when the removal fails it stays, holding the uploaded
    bytes). *)
Theorem video_upload_commits
    (v : VideoVariant) (E : Env) (cfg : apiConfig) (r : Request) (w : World) :
  let run := serve (handlerUploadVideo v E cfg r) w in
  status <$> response run = Some 201 →
  ∃ id token rec form part name randBytes key location,
    uuid_Parse E (r_PathValue_videoID r) = Ok id ∧
    auth_GetBearerToken E (r_Header r) = Ok token ∧
    auth_ValidateJWT E token (jwtSecret cfg) = Ok (UserID rec) ∧
    w_db w !! id = Some rec ∧
    r_bodySize r ≤ maxVideoSize ∧
    r_multipart r = Some form ∧
    lookupFile "video" form = Some part ∧
    mime_ParseMediaType E (fh_ContentType part) = "video/mp4" ∧
    os_CreateTemp_result E = Ok name ∧
    rand_Read E 32 = Ok randBytes ∧
    match v with
    | Plain => key = base64_RawURLEncoding_EncodeToString E randBytes
    | Classified =>
        ∃ ratio, getVideoAspectRatio (prober E) name = Ok ratio ∧
                 key = aspectOf ratio +:+ "/" +:+ base64_RawURLEncoding_EncodeToString E randBytes
    end ∧
    s3_Upload_result E (s3Bucket cfg) key (fh_bytes part) "video/mp4" = Ok location ∧
    final run =
      {| w_db := <[ID rec := set_VideoURL rec (Some location)]> (w_db w);
         w_fs :=
           match os_Remove_fault E name with
           | None =>
               delete name (<[name := fh_bytes part]> (<[name := EmptyString]> (w_fs w)))
           | Some _ => <[name := fh_bytes part]> (<[name := EmptyString]> (w_fs w))
           end;
         w_videoThumbnails := w_videoThumbnails w;
         w_s3 := <[key := (fh_bytes part, "video/mp4")]> (w_s3 w) |} ∧
    response run = Some {| status := 201; body := BodyEmpty |} ∧
    exit run = Returned.
Proof.
  cbv zeta. unfold_video v; unfold ParseMultipartForm; run_handler.
  all: intros Hst; try discriminate Hst.
  all: media_type_known.
  all: match goal with
       | H : mime_ParseMediaType _ _ = _ |- _ => rewrite H in *
       end.
  all: match goal with
       | H : UserID _ = _ |- _ => rewrite <- H in *
       end.
  all: do 9 eexists; repeat split; eauto.
  all: match goal with
       | H : os_Remove_fault _ _ = _ |- _ => rewrite H
       end; reflexivity.
Qed.

Lemma video_upload_commits_witness :
  let run := serve (handlerUploadVideo Classified
                      (demoEnv false false [ {| Width := 1280; Height := 720 |} ]) demoCfg
                      (demoRequest "video" "video/mp4" 1000))
                   (demoWorld None) in
  ∃ key location,
    w_s3 (final run) !! key = Some ("bytes", "video/mp4") ∧
    VideoURL <$> (w_db (final run) !! 1%N) = Some (Some location).
Proof.
  destruct (video_upload_commits Classified
              (demoEnv false false [ {| Width := 1280; Height := 720 |} ]) demoCfg
              (demoRequest "video" "video/mp4" 1000) (demoWorld None))
    as (id & token & rec & form & part & name & randBytes & key & location &
        Hid & _ & _ & Hrec & _ & Hform & Hpart & _ & _ & _ & _ & _ & Hfinal & _).
  - vm_compute. reflexivity.
  - exists key, location. rewrite Hfinal. simpl.
    injection Hid as <-. injection Hform as <-. injection Hpart as <-.
    split; [apply lookup_insert_eq|].
    vm_compute in Hrec. injection Hrec as <-.
    simpl. by rewrite lookup_insert_eq.
Defined.

(** X7.  When the update of the record fails after the upload, a video
    handler answers 500 and leaves the record store as it was, but the
    uploaded object stays in the bucket: nothing removes it. *)
Theorem update_failure_orphans_object
    (v : VideoVariant) (E : Env) (cfg : apiConfig) (r : Request) (w : World) (rec : Video) :
  let run := serve (handlerUploadVideo v E cfg r) w in
  EvUpdateVideo rec false ∈ events run →
  response run = Some {| status := 500; body := BodyError "Couldn't update video data" |} ∧
  w_db (final run) = w_db w ∧
  ∃ key content location,
    EvUpload key true ∈ events run ∧
    s3_Upload_result E (s3Bucket cfg) key content "video/mp4" = Ok location ∧
    VideoURL rec = Some location ∧
    w_s3 (final run) = <[key := (content, "video/mp4")]> (w_s3 w).
Proof.
  cbv zeta. unfold_video v; run_handler.
  all: intros Hin; in_trace.
  all: media_type_known.
  all: match goal with
       | H : mime_ParseMediaType _ _ = _ |- _ => rewrite H in *
       end.
  all: split; [reflexivity|]; split; [reflexivity|].
  all: do 3 eexists; split; [repeat constructor|]; repeat split; eauto.
Qed.

Lemma update_failure_orphans_object_witness :
  let run := serve (handlerUploadVideo Plain (demoEnv true false []) demoCfg
                      (demoRequest "video" "video/mp4" 1000))
                   (demoWorld None) in
  status <$> response run = Some 500 ∧
  w_db (final run) = w_db (demoWorld None) ∧
  w_s3 (final run) !! "random" = Some ("bytes", "video/mp4").
Proof.
  destruct (update_failure_orphans_object Plain (demoEnv true false []) demoCfg
              (demoRequest "video" "video/mp4" 1000) (demoWorld None)
              (set_VideoURL (demoVideo None) (Some "https://tubely/random")))
    as (Hresp & Hdb & _).
  - vm_compute. repeat constructor.
  - split; [by rewrite Hresp|]. split; [exact Hdb|]. vm_compute. reflexivity.
Defined.


(** X8.  The disk variant of the thumbnail handler answers 200 only when:
    the caller owns the record, the record had a thumbnail reference, the
    part's media type is [image/jpeg] or [image/png], and the file the old
    reference names existed.  The world is then exactly: the new file holding
    the uploaded bytes, the old file removed, the record with its thumbnail
    reference set to the new URL; the answer carries that record. *)
Theorem thumbnail_disk_commits
    (E : Env) (cfg : apiConfig) (r : Request) (w : World) :
  let run := serve (ThumbnailDisk.handlerUploadThumbnail E cfg r) w in
  status <$> response run = Some 200 →
  ∃ id token rec form part randBytes oldURL,
    uuid_Parse E (r_PathValue_videoID r) = Ok id ∧
    auth_GetBearerToken E (r_Header r) = Ok token ∧
    auth_ValidateJWT E token (jwtSecret cfg) = Ok (UserID rec) ∧
    w_db w !! id = Some rec ∧
    ThumbnailURL rec = Some oldURL ∧
    r_multipart r = Some form ∧
    lookupFile "thumbnail" form = Some part ∧
    rand_Read E 32 = Ok randBytes ∧
    let mt := mime_ParseMediaType E (fh_ContentType part) in
    let assetPath := getAssetPath E (base64_RawURLEncoding_EncodeToString E randBytes) mt in
    let diskPath := getAssetDiskPath E cfg assetPath in
    let oldPath := "./assets/" +:+ getAssetFromURL E oldURL in
    let rec' := set_ThumbnailURL rec (Some (getAssetURL E cfg assetPath)) in
    (mt = "image/jpeg" ∨ mt = "image/png") ∧
    is_Some (<[diskPath := fh_bytes part]> (w_fs w) !! oldPath) ∧
    final run =
      {| w_db := <[ID rec := rec']> (w_db w);
         w_fs := delete oldPath (<[diskPath := fh_bytes part]> (w_fs w));
         w_videoThumbnails := w_videoThumbnails w;
         w_s3 := w_s3 w |} ∧
    response run = Some {| status := 200; body := BodyVideo rec' |} ∧
    exit run = Returned.
Proof.
  cbv zeta. unfold ThumbnailDisk.handlerUploadThumbnail, ParseMultipartForm. run_handler.
  all: intros Hst; try discriminate Hst.
  all: media_type_known.
  all: match goal with
       | H : UserID _ = _ |- _ => rewrite <- H in *
       end.
  all: do 7 eexists; repeat split; eauto.
  all: try (unfold with_fs, with_db; cbn; by rewrite insert_insert_eq).
  all: rewrite ?insert_insert_eq in *; eauto.
  all: match goal with
       | H : negb _ && negb _ = false |- _ =>
           apply andb_false_iff in H as [H|H];
           apply negb_false_iff, String.eqb_eq in H; auto
       end.
Qed.

Lemma thumbnail_disk_commits_witness :
  let run := serve (ThumbnailDisk.handlerUploadThumbnail (demoEnv false false []) demoCfg
                      (demoRequest "thumbnail" "image/png" 1000))
                   (demoWorld (Some "http://localhost:8091/assets/old.png")) in
  ∃ rec', response run = Some {| status := 200; body := BodyVideo rec' |} ∧
          ThumbnailURL rec' = Some "http://localhost:8091/assets/random.png".
Proof.
  destruct (thumbnail_disk_commits (demoEnv false false []) demoCfg
              (demoRequest "thumbnail" "image/png" 1000)
              (demoWorld (Some "http://localhost:8091/assets/old.png")))
    as (id & token & rec & form & part & randBytes & oldURL &
        _ & _ & _ & _ & _ & Hform & Hpart & Hrand & _ & _ & _ & Hresp & _).
  - vm_compute. reflexivity.
  - eexists. split; [exact Hresp|].
    injection Hform as <-. injection Hpart as <-. injection Hrand as <-.
    reflexivity.
Defined.

(** X9.  The disk variant of the thumbnail handler does not clean up: when
    the new file has been written and the request then fails (panic, failed
    update, failed removal), the file stays on disk with the uploaded bytes,
    and no file has been removed. *)
Theorem failed_thumbnail_upload_leaves_file
    (E : Env) (cfg : apiConfig) (r : Request) (w : World) (path : string) :
  let run := serve (ThumbnailDisk.handlerUploadThumbnail E cfg r) w in
  EvCopy path true ∈ events run →
  status <$> response run ≠ Some 200 →
  ∃ form part,
    r_multipart r = Some form ∧
    lookupFile "thumbnail" form = Some part ∧
    w_fs (final run) !! path = Some (fh_bytes part) ∧
    (∀ p ok, EvRemove p ok ∈ events run → ok = false).
Proof.
  cbv zeta. unfold ThumbnailDisk.handlerUploadThumbnail, ParseMultipartForm. run_handler.
  all: intros Hin Hst; in_trace; try done.
  all: do 2 eexists; split; [reflexivity|]; split; [eassumption|].
  all: split; [by rewrite lookup_insert_eq|].
  all: intros p ok Hrm; in_trace; reflexivity.
Qed.

Lemma failed_thumbnail_upload_leaves_file_witness :
  let run := serve (ThumbnailDisk.handlerUploadThumbnail (demoEnv true false []) demoCfg
                      (demoRequest "thumbnail" "image/png" 1000))
                   (demoWorld (Some "http://localhost:8091/assets/old.png")) in
  status <$> response run = Some 500 ∧
  w_fs (final run) !! "./assets/random.png" = Some "bytes".
Proof.
  split; [vm_compute; reflexivity|].
  destruct (failed_thumbnail_upload_leaves_file (demoEnv true false []) demoCfg
              (demoRequest "thumbnail" "image/png" 1000)
              (demoWorld (Some "http://localhost:8091/assets/old.png"))
              "./assets/random.png")
    as (form & part & Hform & Hpart & Hfs & _).
  - vm_compute. repeat constructor.
  - vm_compute. discriminate.
  - injection Hform as <-. injection Hpart as <-. exact Hfs.
Defined.


(** X10.  The memory variant of the thumbnail handler answers 200 only when
    the caller owns the record and the part declares a content type.  The
    world is then exactly: the map [videoThumbnails] with the uploaded bytes
    and the declared content type (as written, not parsed) under the video's
    identifier, and the record with its thumbnail reference set to
    [http://localhost:<port>/api/thumbnails/<id>]. *)
Theorem thumbnail_memory_commits
    (E : Env) (cfg : apiConfig) (r : Request) (w : World) :
  let run := serve (ThumbnailMemory.handlerUploadThumbnail E cfg r) w in
  status <$> response run = Some 200 →
  ∃ id token rec form part,
    uuid_Parse E (r_PathValue_videoID r) = Ok id ∧
    auth_GetBearerToken E (r_Header r) = Ok token ∧
    auth_ValidateJWT E token (jwtSecret cfg) = Ok (UserID rec) ∧
    w_db w !! id = Some rec ∧
    r_multipart r = Some form ∧
    lookupFile "thumbnail" form = Some part ∧
    fh_ContentType part ≠ EmptyString ∧
    let rec' :=
      set_ThumbnailURL rec
        (Some ("http://localhost:" +:+ port cfg +:+ "/api/thumbnails/" +:+ uuid_String E id)) in
    final run =
      {| w_db := <[ID rec := rec']> (w_db w);
         w_fs := w_fs w;
         w_videoThumbnails :=
           <[id := {| data := fh_bytes part; mediaType := fh_ContentType part |}]>
             (w_videoThumbnails w);
         w_s3 := w_s3 w |} ∧
    response run = Some {| status := 200; body := BodyVideo rec' |} ∧
    exit run = Returned.
Proof.
  cbv zeta. unfold ThumbnailMemory.handlerUploadThumbnail, ParseMultipartForm. run_handler.
  all: intros Hst; try discriminate Hst.
  all: media_type_known.
  all: match goal with
       | H : UserID _ = _ |- _ => rewrite <- H in *
       end.
  all: match goal with
       | H : (_ =? _)%string = false |- _ => apply String.eqb_neq in H
       end.
  all: do 5 eexists; repeat split; eauto.
Qed.

Lemma thumbnail_memory_commits_witness :
  let run := serve (ThumbnailMemory.handlerUploadThumbnail (demoEnv false false []) demoCfg
                      (demoRequest "thumbnail" "image/gif" 1000))
                   (demoWorld None) in
  w_videoThumbnails (final run) !! 1%N = Some {| data := "bytes"; mediaType := "image/gif" |}.
Proof.
  destruct (thumbnail_memory_commits (demoEnv false false []) demoCfg
              (demoRequest "thumbnail" "image/gif" 1000) (demoWorld None))
    as (id & token & rec & form & part & Hid & _ & _ & _ & Hform & Hpart & _ & Hfinal & _).
  - vm_compute. reflexivity.
  - cbv zeta in *. rewrite Hfinal. simpl.
    injection Hid as <-. injection Hform as <-. injection Hpart as <-.
    apply lookup_insert_eq.
Defined.


(** ** What the handlers keep *)

Lemma fmap_update_same {A} (f : Video → A) (db : gmap UUID Video) (id : UUID) (v v' : Video) :
  db !! id = Some v → ID v = id → f v' = f v →
  f <$> <[ID v := v']> db = f <$> db.
Proof.
  intros Hv Hid Hf. rewrite Hid, fmap_insert, Hf.
  apply insert_id. by rewrite lookup_fmap, Hv.
Qed.

Lemma keyed_update (db : gmap UUID Video) (id : UUID) (v v' : Video) :
  keyed_by_ID db → db !! id = Some v → ID v' = ID v →
  keyed_by_ID (<[ID v := v']> db).
Proof.
  intros Hk Hv Hid i x Hx.
  destruct (decide (ID v = i)) as [<-|Hne].
  - rewrite lookup_insert_eq in Hx. by simplify_eq.
  - rewrite lookup_insert_ne in Hx by done. by apply Hk.
Qed.

(** X11.  On a record store in which every record is filed under its own
    identifier, every handler keeps that property, the set of records, and
    each record's identifier and owner; a thumbnail handler never changes a
    video reference and a video handler never changes a thumbnail
    reference. *)
Theorem handlers_keep_identity_and_owner
    (h : Handler) (E : Env) (cfg : apiConfig) (r : Request) (w : World) :
  keyed_by_ID (w_db w) →
  let run := serve (handlerOf h E cfg r) w in
  keyed_by_ID (w_db (final run)) ∧
  ID <$> w_db (final run) = ID <$> w_db w ∧
  UserID <$> w_db (final run) = UserID <$> w_db w ∧
  match h with
  | ForThumbnail _ => VideoURL <$> w_db (final run) = VideoURL <$> w_db w
  | ForVideo _ => ThumbnailURL <$> w_db (final run) = ThumbnailURL <$> w_db w
  end.
Proof.
  intros Hk. cbv zeta. unfold_handler h; run_handler.
  all: try (repeat split; done).
  all: match goal with
       | H : w_db _ !! ?a = Some ?v |- _ => pose proof (Hk a v H) as Hkey
       end.
  all: repeat split;
    first [ by eapply keyed_update | by eapply fmap_update_same ].
Qed.

Lemma handlers_keep_identity_and_owner_witness :
  let run := serve (handlerOf (ForVideo Classified)
                      (demoEnv false false [ {| Width := 1920; Height := 1080 |} ]) demoCfg
                      (demoRequest "video" "video/mp4" 1000))
                   (demoWorld (Some "http://localhost:8091/assets/old.png")) in
  UserID <$> (w_db (final run) !! 1%N) = Some 7%N ∧
  ThumbnailURL <$> (w_db (final run) !! 1%N) = Some (Some "http://localhost:8091/assets/old.png").
Proof.
  destruct (handlers_keep_identity_and_owner (ForVideo Classified)
              (demoEnv false false [ {| Width := 1920; Height := 1080 |} ]) demoCfg
              (demoRequest "video" "video/mp4" 1000)
              (demoWorld (Some "http://localhost:8091/assets/old.png")))
    as (_ & _ & Hown & Hthumb).
  - intros id v Hv. simpl in Hv. apply lookup_singleton_Some in Hv as [<- <-]. reflexivity.
  - cbv zeta. rewrite <- !lookup_fmap, Hown, Hthumb. split; reflexivity.
Defined.

(** X12.  Every run of every handler writes exactly one response and
    returns, with one exception: the disk variant of the thumbnail handler
    may panic, and then it has written none. *)
Theorem every_request_is_answered_once
    (h : Handler) (E : Env) (cfg : apiConfig) (r : Request) (w : World) :
  let run := serve (handlerOf h E cfg r) w in
  (exit run = Returned ∧
   ∃ resp, response run = Some resp ∧
           List.filter is_respond (events run) = [EvRespond (status resp)]) ∨
  (h = ForThumbnail OnDisk ∧ exit run = Panicked ∧ response run = None ∧
   List.filter is_respond (events run) = []).
Proof.
  cbv zeta. unfold_handler h; run_handler.
  all: first [ left; split; [reflexivity|]; eexists; split; reflexivity
             | right; repeat split; reflexivity ].
Qed.

(** X13.  When the name the system picks for the staging file is not the
    name of an existing file, a video handler never panics, leaves the map
    [videoThumbnails] as it was, and leaves the local file system as it was
    on every path but one: when the removal of the staging file fails, that
    file, and nothing else, is left behind. *)
Theorem video_handlers_leave_local_state
    (v : VideoVariant) (E : Env) (cfg : apiConfig) (r : Request) (w : World) :
  (∀ name, os_CreateTemp_result E = Ok name → w_fs w !! name = None) →
  let run := serve (handlerUploadVideo v E cfg r) w in
  exit run = Returned ∧
  w_videoThumbnails (final run) = w_videoThumbnails w ∧
  (w_fs (final run) = w_fs w ∨
   ∃ name content e,
     os_CreateTemp_result E = Ok name ∧
     os_Remove_fault E name = Some e ∧
     EvRemove name false ∈ events run ∧
     w_fs (final run) = <[name := content]> (w_fs w)) ∧
  ((∀ name, os_Remove_fault E name = None) → w_fs (final run) = w_fs w).
Proof.
  intros Hfresh. cbv zeta. unfold_video v; run_handler.
  all: split; [reflexivity|]; split; [reflexivity|].
  all: try (split; [by left | done]).
  all: match goal with
       | H : os_Remove_fault _ _ = None |- _ =>
           rewrite ?delete_insert_eq; split; [left|intros _]; apply delete_id; by apply Hfresh
       | H : os_Remove_fault _ _ = Some _ |- _ =>
           split;
           [ right; do 3 eexists; split; [reflexivity|]; split; [exact H|];
             split; [repeat constructor|]; rewrite ?insert_insert_eq; reflexivity
           | intros Hnone; rewrite Hnone in H; discriminate H ]
       end.
Qed.

Lemma video_handlers_leave_local_state_witness :
  let run := serve (handlerUploadVideo Plain (demoEnv false false []) demoCfg
                      (demoRequest "video" "video/mp4" 1000))
                   (demoWorld None) in
  status <$> response run = Some 201 ∧ w_fs (final run) = w_fs (demoWorld None).
Proof.
  split; [vm_compute; reflexivity|].
  destruct (video_handlers_leave_local_state Plain (demoEnv false false []) demoCfg
              (demoRequest "video" "video/mp4" 1000) (demoWorld None))
    as (_ & _ & _ & Hfs).
  - intros name Hname. injection Hname as <-. vm_compute. reflexivity.
  - apply Hfs. reflexivity.
Defined.

(** X14.  No handler removes an object from the bucket: every key present
    before a run is present after it, and a run adds or overwrites at most
    the one key it uploaded.  The thumbnail handlers do not touch the bucket;
    the video handlers do not touch the map [videoThumbnails]. *)
Theorem remote_objects_are_never_removed
    (h : Handler) (E : Env) (cfg : apiConfig) (r : Request) (w : World) :
  let run := serve (handlerOf h E cfg r) w in
  dom (w_s3 w) ⊆ dom (w_s3 (final run)) ∧
  (w_s3 (final run) = w_s3 w ∨
   ∃ key object, EvUpload key true ∈ events run ∧
                 w_s3 (final run) = <[key := object]> (w_s3 w)) ∧
  match h with
  | ForThumbnail _ => w_s3 (final run) = w_s3 w
  | ForVideo _ => w_videoThumbnails (final run) = w_videoThumbnails w
  end.
Proof.
  cbv zeta. unfold_handler h; run_handler.
  all: split; [try done; rewrite dom_insert; set_solver|].
  all: split; [|reflexivity].
  all: first [ by left | right; do 2 eexists; split; [repeat constructor | reflexivity] ].
Qed.


(** ** The ratio as a function of the dimensions *)

Lemma rangeStreams_Ok_iff (streams : list Stream) :
  (∃ ratio, rangeStreams streams = Ok ratio) ↔ Exists usable streams.
Proof.
  induction streams as [|s streams IH].
  - split; [intros [? ?]; discriminate | intros H; inversion H].
  - destruct (decide (0 < Width s ∧ 0 < Height s)) as [Hs|Hs].
    + split; [intros _; by left|]. intros _.
      rewrite rangeStreams_first by done. eauto.
    + change (s :: streams) with ([s] ++ streams)%list.
      rewrite rangeStreams_skip by (by repeat constructor).
      rewrite IH. split; [by right|]. intros H. inversion H; subst; [done | done].
Qed.

(** X15.  The prober returns a ratio exactly when the tool ran, its output
    was parsed, and at least one reported stream has strictly positive width
    and height. *)
Theorem prober_succeeds_iff_usable_stream (P : Prober) (filePath : string) :
  (∃ ratio, getVideoAspectRatio P filePath = Ok ratio) ↔
  (∃ stdout streams,
     exec_ffprobe P filePath = Ok stdout ∧
     json_Unmarshal P stdout = Ok streams ∧
     Exists usable streams).
Proof.
  unfold getVideoAspectRatio. split.
  - intros [ratio H].
    destruct (exec_ffprobe P filePath) as [stdout|] eqn:Hrun; [|discriminate].
    destruct (json_Unmarshal P stdout) as [streams|] eqn:Hjson; [|discriminate].
    exists stdout, streams. split; [reflexivity|]. split; [exact Hjson|].
    destruct (Z.of_nat (length streams) =? 0); [discriminate|].
    apply rangeStreams_Ok_iff. eauto.
  - intros (stdout & streams & -> & -> & Hex).
    destruct (Z.eqb_spec (Z.of_nat (length streams)) 0) as [Hlen|_].
    + destruct streams; [inversion Hex | simpl in Hlen; lia].
    + by apply rangeStreams_Ok_iff.
Qed.

Lemma reduced_eq_iff (w1 h1 w2 h2 : Z) :
  0 < w1 → 0 < h1 → 0 < w2 → 0 < h2 →
  (w1 `div` Z.gcd w1 h1 = w2 `div` Z.gcd w2 h2 ∧
   h1 `div` Z.gcd w1 h1 = h2 `div` Z.gcd w2 h2) ↔
  w1 * h2 = w2 * h1.
Proof.
  intros Hw1 Hh1 Hw2 Hh2.
  destruct (reduced_positive w1 h1 Hw1 Hh1) as (Ha1 & Hb1 & Hc1).
  destruct (reduced_positive w2 h2 Hw2 Hh2) as (Ha2 & Hb2 & Hc2).
  assert (Hg1 : 0 < Z.gcd w1 h1).
  { pose proof (Z.gcd_nonneg w1 h1).
    destruct (Z.eq_dec (Z.gcd w1 h1) 0) as [E|]; [|lia]. apply Z.gcd_eq_0_l in E. lia. }
  assert (Hg2 : 0 < Z.gcd w2 h2).
  { pose proof (Z.gcd_nonneg w2 h2).
    destruct (Z.eq_dec (Z.gcd w2 h2) 0) as [E|]; [|lia]. apply Z.gcd_eq_0_l in E. lia. }
  rewrite !Z.quot_div_nonneg in Ha1, Hb1, Ha2, Hb2 by lia.
  rewrite !(Z.quot_div_nonneg _ (Z.gcd _ _)) in Hc1 by lia.
  rewrite !(Z.quot_div_nonneg _ (Z.gcd _ _)) in Hc2 by lia.
  destruct (Z.gcd_divide_l w1 h1) as [a1 Hwa1], (Z.gcd_divide_r w1 h1) as [b1 Hhb1].
  destruct (Z.gcd_divide_l w2 h2) as [a2 Hwa2], (Z.gcd_divide_r w2 h2) as [b2 Hhb2].
  set (g1 := Z.gcd w1 h1) in *. set (g2 := Z.gcd w2 h2) in *.
  assert (Ea1 : w1 `div` g1 = a1) by (rewrite Hwa1; apply Z.div_mul; lia).
  assert (Eb1 : h1 `div` g1 = b1) by (rewrite Hhb1; apply Z.div_mul; lia).
  assert (Ea2 : w2 `div` g2 = a2) by (rewrite Hwa2; apply Z.div_mul; lia).
  assert (Eb2 : h2 `div` g2 = b2) by (rewrite Hhb2; apply Z.div_mul; lia).
  rewrite Ea1, Eb1, Ea2, Eb2 in *.
  split.
  - intros [-> ->]. rewrite Hwa1, Hhb1, Hwa2, Hhb2. ring.
  - intros Hcross.
    assert (Hab : a1 * b2 = a2 * b1).
    { rewrite Hwa1, Hhb1, Hwa2, Hhb2 in Hcross.
      apply (Z.mul_cancel_r _ _ (g1 * g2)); [nia|]. lia. }
    assert (H12 : (a1 | a2)).
    { apply (Z.gauss a1 b1 a2); [|done]. exists b2. lia. }
    assert (H21 : (a2 | a1)).
    { apply (Z.gauss a2 b2 a1); [|done]. exists b1. lia. }
    assert (a1 = a2) by (apply Z.divide_antisym_nonneg; [lia | lia | done | done]).
    subst a2. split; [done|]. nia.
Qed.

(** X16.  Two usable leading streams get the same ratio text exactly when
    their dimensions are proportional ([w1 * h2 = w2 * h1]); in particular a
    uniformly scaled video keeps its ratio. *)
Theorem same_ratio_iff_proportional (s1 s2 : Stream) (rest1 rest2 : list Stream) :
  usable s1 → usable s2 →
  rangeStreams (s1 :: rest1) = rangeStreams (s2 :: rest2) ↔
  Width s1 * Height s2 = Width s2 * Height s1.
Proof.
  intros Hs1 Hs2.
  rewrite !rangeStreams_first by done.
  destruct Hs1 as [Hw1 Hh1], Hs2 as [Hw2 Hh2].
  assert (Hg1 : 0 ≤ Z.gcd (Width s1) (Height s1)) by apply Z.gcd_nonneg.
  assert (Hg2 : 0 ≤ Z.gcd (Width s2) (Height s2)) by apply Z.gcd_nonneg.
  rewrite <- (reduced_eq_iff (Width s1) (Height s1) (Width s2) (Height s2)) by done.
  destruct (reduced_positive _ _ Hw1 Hh1) as (Ha1 & _).
  destruct (reduced_positive _ _ Hw2 Hh2) as (Ha2 & _).
  assert (Hp1 : 0 < Z.gcd (Width s1) (Height s1)).
  { destruct (Z.eq_dec (Z.gcd (Width s1) (Height s1)) 0) as [E|]; [|lia].
    rewrite E in Ha1. rewrite Z.quot_0_r_ext in Ha1; lia. }
  assert (Hp2 : 0 < Z.gcd (Width s2) (Height s2)).
  { destruct (Z.eq_dec (Z.gcd (Width s2) (Height s2)) 0) as [E|]; [|lia].
    rewrite E in Ha2. rewrite Z.quot_0_r_ext in Ha2; lia. }
  rewrite !Z.quot_div_nonneg by lia.
  split.
  - intros H. injection H as H. by apply Sprintf_ratio_inj.
  - intros [-> ->]. reflexivity.
Qed.

Lemma same_ratio_iff_proportional_witness :
  rangeStreams [ {| Width := 1280; Height := 720 |} ] =
  rangeStreams [ {| Width := 3840; Height := 2160 |}; {| Width := 4; Height := 3 |} ].
Proof.
  apply (same_ratio_iff_proportional {| Width := 1280; Height := 720 |}
           {| Width := 3840; Height := 2160 |} [] [ {| Width := 4; Height := 3 |} ]).
  - unfold usable; simpl; lia.
  - unfold usable; simpl; lia.
  - reflexivity.
Defined.

(** X17.  For a usable leading stream of width [w] and height [h] the
    classification is landscape exactly when [9 * w = 16 * h], and portrait
    exactly when it is not. *)
Theorem landscape_iff_sixteen_by_nine (s : Stream) (rest : list Stream) (ratio : string) :
  usable s →
  rangeStreams (s :: rest) = Ok ratio →
  (aspectOf ratio = "landscape" ↔ 9 * Width s = 16 * Height s) ∧
  (aspectOf ratio = "portrait" ↔ 9 * Width s ≠ 16 * Height s).
Proof.
  intros Hs Hratio.
  rewrite rangeStreams_first in Hratio by done. injection Hratio as <-.
  destruct Hs as [Hw Hh].
  assert (Hp : 0 < Z.gcd (Width s) (Height s)).
  { pose proof (Z.gcd_nonneg (Width s) (Height s)).
    destruct (Z.eq_dec (Z.gcd (Width s) (Height s)) 0) as [E|]; [|lia].
    apply Z.gcd_eq_0_l in E. lia. }
  rewrite !Z.quot_div_nonneg by lia.
  assert (Hiff : aspectOf (Sprintf_ratio (Width s `div` Z.gcd (Width s) (Height s))
                                         (Height s `div` Z.gcd (Width s) (Height s)))
                 = "landscape" ↔ 9 * Width s = 16 * Height s).
  { rewrite aspectOf_landscape.
    pose proof (reduced_eq_iff (Width s) (Height s) 16 9 Hw Hh) as H.
    change (Z.gcd 16 9) with 1 in H. change (16 `div` 1) with 16 in H.
    change (9 `div` 1) with 9 in H. rewrite H by lia. lia. }
  split; [done|].
  destruct (aspectOf_values (Sprintf_ratio (Width s `div` Z.gcd (Width s) (Height s))
                                           (Height s `div` Z.gcd (Width s) (Height s))))
    as [Hl|Hp'].
  - rewrite Hl. split; [discriminate|]. intros Hne. by apply Hiff in Hl.
  - rewrite Hp'. split; [|done]. intros _ Heq. apply Hiff in Heq. congruence.
Qed.

Lemma landscape_iff_sixteen_by_nine_witness :
  aspectOf "16:9" = "landscape".
Proof.
  apply (landscape_iff_sixteen_by_nine {| Width := 2560; Height := 1440 |} [] "16:9").
  - unfold usable; simpl; lia.
  - reflexivity.
  - reflexivity.
Defined.
